(** * Request handlers of the weather / cities / chat backend

    A shallow embedding of [src/server.js] and of the three Mongoose models
    declared in [src/models/City.js].  Handlers are functions from the outside
    world (environment variables, upstream services, database availability),
    the document store and the request to a response and a new store.
    JavaScript exceptions are explicit: a handler body runs in an exception
    monad and every [try { ... } catch] of the source is a [try_catch]. *)

From Stdlib Require Import List String Ascii Bool ZArith Lia Decimal DecimalString.
Import ListNotations.
Local Open Scope string_scope.

Set Implicit Arguments.

(** ** JavaScript values and exceptions *)

Module JS.

(** The values the handlers inspect: parsed JSON plus [undefined]. Objects are
    association lists, the first binding of a key being the visible one.
    Numbers are integers; no handler computes with them. *)
#[warnings="-register-all"]
Inductive value : Type :=
| VUndef
| VNull
| VBool (b : bool)
| VNum (z : Z)
| VStr (s : string)
| VArr (items : list value)
| VObj (props : list (string * value)).

Inductive exn : Type :=
| Error (msg : string)
| TypeError
| ReferenceError (name : string)
| SyntaxError
| NetworkFailure
| BadStatus (status : Z)
| MongoError
| ValidationError (path : string).

(** Result of evaluating an expression or a block that may throw. *)
Inductive M (A : Type) : Type :=
| Ok (a : A)
| Throw (e : exn).
Arguments Ok {A} a.
Arguments Throw {A} e.

Definition bind {A B} (m : M A) (k : A -> M B) : M B :=
  match m with
  | Ok a => k a
  | Throw e => Throw e
  end.

(** [try { body } catch (error) { handler }] *)
Definition try_catch {A} (body : M A) (handler : exn -> A) : A :=
  match body with
  | Ok a => a
  | Throw e => handler e
  end.

(** ToBoolean *)
Definition truthy (v : value) : bool :=
  match v with
  | VUndef | VNull => false
  | VBool b => b
  | VNum z => negb (z =? 0)%Z
  | VStr s => negb (s =? "")
  | VArr _ | VObj _ => true
  end.

(** A promise is an object: it is truthy whether it is pending, fulfilled or
    rejected.  [await] is the only way to its outcome. *)
Inductive Promise (A : Type) : Type :=
| Settled (outcome : M A).
Arguments Settled {A} outcome.

Definition truthy_promise {A} (p : Promise A) : bool := true.

Definition await {A} (p : Promise A) : M A :=
  match p with Settled o => o end.

Fixpoint lookup (k : string) (props : list (string * value)) : value :=
  match props with
  | [] => VUndef
  | (k', v) :: rest => if k =? k' then v else lookup k rest
  end.

(** [v.name] for a property name that no built-in prototype defines
    ([choices], [message], [content]): reading a property of [undefined] or
    [null] throws, primitives and arrays have no such property. *)
Definition get_prop (v : value) (name : string) : M value :=
  match v with
  | VUndef | VNull => Throw TypeError
  | VObj props => Ok (lookup name props)
  | VBool _ | VNum _ | VStr _ | VArr _ => Ok VUndef
  end.

Definition index_key (i : nat) : string :=
  NilZero.string_of_uint (Nat.to_uint i).

Definition char_at (s : string) (i : nat) : value :=
  match String.get i s with
  | Some c => VStr (String c "")
  | None => VUndef
  end.

(** [v[i]] *)
Definition get_index (v : value) (i : nat) : M value :=
  match v with
  | VUndef | VNull => Throw TypeError
  | VArr items => Ok (nth i items VUndef)
  | VStr s => Ok (char_at s i)
  | VObj props => Ok (lookup (index_key i) props)
  | VBool _ | VNum _ => Ok VUndef
  end.

(** *** String.prototype.trim

    Strings are UTF-8 byte strings.  The white space and line terminators of
    ECMAScript are the six ASCII controls below and the code points U+00A0,
    U+1680, U+2000..U+200A, U+2028, U+2029, U+202F, U+205F, U+3000 and U+FEFF,
    of two or three bytes each. *)
Definition ws1 (a : ascii) : bool :=
  let n := nat_of_ascii a in
  ((9 <=? n) && (n <=? 13) || (n =? 32))%nat.

Definition ws2 (a b : ascii) : bool :=
  ((nat_of_ascii a =? 194) && (nat_of_ascii b =? 160))%nat.

Definition ws3 (a b c : ascii) : bool :=
  let x := nat_of_ascii a in
  let y := nat_of_ascii b in
  let z := nat_of_ascii c in
  ((x =? 225) && (y =? 154) && (z =? 128)
   || (x =? 226) && (y =? 128)
      && ((128 <=? z) && (z <=? 138) || (z =? 168) || (z =? 169) || (z =? 175))
   || (x =? 226) && (y =? 129) && (z =? 159)
   || (x =? 227) && (y =? 128) && (z =? 128)
   || (x =? 239) && (y =? 187) && (z =? 191))%nat.

(** Drops leading white space of a list of bytes; [fwd] tells whether the
    list is in reading order or reversed. *)
Fixpoint drop_ws (fwd : bool) (l : list ascii) : list ascii :=
  match l with
  | [] => []
  | a :: l1 =>
    if ws1 a then drop_ws fwd l1 else
    match l1 with
    | [] => l
    | b :: l2 =>
      if (if fwd then ws2 a b else ws2 b a) then drop_ws fwd l2 else
      match l2 with
      | [] => l
      | c :: l3 =>
        if (if fwd then ws3 a b c else ws3 c b a) then drop_ws fwd l3 else l
      end
    end
  end.

Definition trim (s : string) : string :=
  string_of_list_ascii
    (List.rev (drop_ws false (List.rev (drop_ws true (list_ascii_of_string s))))).

(** [s.startsWith(p)] *)
Definition startsWith (s p : string) : bool := String.prefix p s.

End JS.
Import JS.

Notation "x <- m ;; k" := (bind m (fun x => k))
  (at level 61, m at next level, right associativity).

(** A request field ([req.body.x], [req.query.x]) or an environment variable
    ([process.env.X]) is absent or a string. *)
Definition field := option string.

Definition field_value (f : field) : value :=
  match f with
  | None => VUndef
  | Some s => VStr s
  end.

(** [!x] *)
Definition falsy (f : field) : bool := negb (truthy (field_value f)).

(** [`${x}`] *)
Definition interpolate (f : field) : string :=
  match f with
  | None => "undefined"
  | Some s => s
  end.

(** ** The Mongoose models *)

Definition ObjectId := string.

Module Mongoose.

Inductive SchemaType := TString | TObjectId | TDate.

Record SchemaPath := {
  path : string;
  type : SchemaType;
  required : bool;
  unique : bool;
  has_default : bool
}.

(** [indexes] are the compound indexes declared with [schema.index(...)]:
    the paths of each one and whether it is unique. *)
Record Schema := {
  paths : list SchemaPath;
  indexes : list (list string * bool)
}.

(** The value a document holds at a path. *)
Inductive cell :=
| Missing
| Str (s : string)
| Oid (id : ObjectId)
| Date (ms : Z).

Definition cell_eqb (a b : cell) : bool :=
  match a, b with
  | Missing, Missing => true
  | Str s, Str t => s =? t
  | Oid s, Oid t => s =? t
  | Date x, Date y => (x =? y)%Z
  | _, _ => false
  end.

(** The [required] validator: a String path needs a string of positive
    length, another path needs a value. *)
Definition checkRequired (t : SchemaType) (c : cell) : bool :=
  match t, c with
  | TString, Str s => negb (s =? "")
  | TObjectId, Oid _ => true
  | TDate, Date _ => true
  | _, _ => false
  end.

Fixpoint validate_paths (ps : list SchemaPath) (doc : string -> cell) : M unit :=
  match ps with
  | [] => Ok tt
  | p :: rest =>
    if required p && negb (checkRequired (type p) (doc (path p)))
    then Throw (ValidationError (path p))
    else validate_paths rest doc
  end.

Definition validate (sch : Schema) (doc : string -> cell) : M unit :=
  validate_paths (paths sch) doc.

(** The keys on which the collection of a schema refuses duplicates: one per
    [unique: true] path and one per unique compound index. *)
Definition unique_keys (sch : Schema) : list (list string) :=
  map (fun p => [path p]) (filter unique (paths sch))
  ++ map fst (filter snd (indexes sch)).

Definition same_key (key : list string) (d1 d2 : string -> cell) : bool :=
  forallb (fun p => cell_eqb (d1 p) (d2 p)) key.

Definition duplicate_key (sch : Schema) (stored : list (string -> cell))
    (doc : string -> cell) : bool :=
  existsb (fun key => existsb (same_key key doc) stored) (unique_keys sch).

End Mongoose.
Import Mongoose.

Module User.
Record doc := { _id : ObjectId; username : string; password : string }.

Definition schema : Schema :=
  {| paths := [ {| path := "username"; type := TString; required := true;
                   unique := true; has_default := false |};
                {| path := "password"; type := TString; required := true;
                   unique := false; has_default := false |} ];
     indexes := [] |}.

Definition cells (u : doc) (p : string) : cell :=
  if p =? "username" then Str (username u)
  else if p =? "password" then Str (password u)
  else Missing.
End User.

Module City.
Record doc := { name : string; userId : ObjectId }.

Definition schema : Schema :=
  {| paths := [ {| path := "name"; type := TString; required := true;
                   unique := false; has_default := false |};
                {| path := "userId"; type := TObjectId; required := true;
                   unique := false; has_default := false |} ];
     indexes := [] |}.

Definition cells (c : doc) (p : string) : cell :=
  if p =? "name" then Str (name c)
  else if p =? "userId" then Oid (userId c)
  else Missing.
End City.

Module Chat.
Record doc := { userMessage : string; botMessage : string; createdAt : Z }.

Definition schema : Schema :=
  {| paths := [ {| path := "userMessage"; type := TString; required := true;
                   unique := false; has_default := false |};
                {| path := "botMessage"; type := TString; required := true;
                   unique := false; has_default := false |};
                {| path := "createdAt"; type := TDate; required := false;
                   unique := false; has_default := true |} ];
     indexes := [] |}.

Definition cells (c : doc) (p : string) : cell :=
  if p =? "userMessage" then Str (userMessage c)
  else if p =? "botMessage" then Str (botMessage c)
  else if p =? "createdAt" then Date (createdAt c)
  else Missing.
End Chat.

(** ** The document store and the outside world *)

Record Session := { sid : string; session_user : ObjectId }.

Record Store := {
  users : list User.doc;
  cities : list City.doc;
  chats : list Chat.doc;
  sessions : list Session
}.

Definition with_cities (st : Store) (cs : list City.doc) : Store :=
  {| users := users st; cities := cs; chats := chats st; sessions := sessions st |}.

Definition with_chats (st : Store) (cs : list Chat.doc) : Store :=
  {| users := users st; cities := cities st; chats := cs; sessions := sessions st |}.

Definition with_sessions (st : Store) (ss : list Session) : Store :=
  {| users := users st; cities := cities st; chats := chats st; sessions := ss |}.

(** What a 2xx or non-2xx upstream HTTP response carries: a body that parses
    as JSON, or text that does not. *)
Inductive HttpBody :=
| JsonText (v : value)
| NotJson (raw : string).

Inductive HttpOutcome :=
| Unreachable
| HttpResponse (status : Z) (payload : HttpBody).

Record World := {
  OPENWEATHER_API_KEY : field;
  OPENAI_API_KEY : field;
  (** [__dirname], which only a CommonJS module has *)
  dirname : field;
  mongo_up : bool;
  (** the weather service, by URL *)
  http : string -> HttpOutcome;
  (** [openai.chat.completions.create] for a single user message *)
  completions_create : string -> M value;
  file_readable : string -> bool;
  bcrypt_genSalt : nat -> string;
  bcrypt_hash : string -> string -> string;
  bcrypt_compare : string -> string -> bool;
  Date_now : Z
}.

(** What the module meets when it is loaded, besides the world of the
    handlers: the connection string, and what the call into [./db.js], the
    session store given a connection string and the Twilio library do, each
    of which returns or ends the process. *)
Record LoadEnv := {
  MONGO_URI : field;
  connectDB : M unit;
  MongoStore_connect : M unit;
  Twilio_new : M unit
}.

(** ** Responses *)

Inductive Body :=
| JsonError (error : string)
| JsonMessage (message : string)
| JsonLogin (message : string) (user : User.doc)
| JsonCitySaved (message : string) (city : City.doc)
| JsonCities (found : list City.doc)
| JsonChat (response : string)
| JsonData (data : value)
| FileBody (contentType filePath : string)
| TextBody (text : string).

Record Response := { status : Z; body : Body }.

(** [res.json(b)] *)
Definition res_json (b : Body) : Response := {| status := 200; body := b |}.

(** [res.status(n).json(b)] *)
Definition res_status_json (n : Z) (b : Body) : Response :=
  {| status := n; body := b |}.

(** What [req.isAuthenticated()] and [req.user] give for the request. *)
Record Auth := { isAuthenticated : bool; user : option User.doc }.

(** The string of a truthy field. *)
Definition present (f : field) : option string :=
  if falsy f then None else f.

(** ** Library calls and database operations *)

Section Handlers.

Variable w : World.

Definition connected : M unit :=
  if mongo_up w then Ok tt else Throw MongoError.

(** [axios.get(url)] with the defaults of axios: a status outside 2xx
    rejects, a body that does not parse as JSON is handed over as text. *)
Definition axios_get (url : string) : M value :=
  match http w url with
  | Unreachable => Throw NetworkFailure
  | HttpResponse code payload =>
    if ((200 <=? code) && (code <? 300))%Z then
      Ok (match payload with
          | JsonText v => v
          | NotJson raw => VStr raw
          end)
    else Throw (BadStatus code)
  end.

(** [fetch(url)] resolves for every status. *)
Definition fetch (url : string) : M (Z * HttpBody) :=
  match http w url with
  | Unreachable => Throw NetworkFailure
  | HttpResponse code payload => Ok (code, payload)
  end.

(** [response.json()] *)
Definition response_json (response : Z * HttpBody) : M value :=
  match snd response with
  | JsonText v => Ok v
  | NotJson _ => Throw SyntaxError
  end.

(** [User.findOne({ username })]: a filter on [undefined] matches no stored
    user, every one of which has a username. *)
Definition User_findOne (st : Store) (username : field) : M (option User.doc) :=
  _ <- connected;;
  Ok (match username with
      | None => None
      | Some n => find (fun u => User.username u =? n) (users st)
      end).

(** [City.findOne({ name, userId })] *)
Definition City_findOne (st : Store) (name : string) (userId : ObjectId)
  : M (option City.doc) :=
  _ <- connected;;
  Ok (find (fun c => (City.name c =? name) && (City.userId c =? userId))
           (cities st)).

(** [City.find({ userId })] *)
Definition City_find (st : Store) (userId : ObjectId) : M (list City.doc) :=
  _ <- connected;;
  Ok (filter (fun c => City.userId c =? userId) (cities st)).

(** [doc.save()] of a new document: validation, then the insert, which the
    unique indexes of the collection may refuse. *)
Definition City_save (st : Store) (c : City.doc) : M Store :=
  _ <- validate City.schema (City.cells c);;
  _ <- connected;;
  if duplicate_key City.schema (map City.cells (cities st)) (City.cells c)
  then Throw MongoError
  else Ok (with_cities st (cities st ++ [c])).

Definition Chat_save (st : Store) (c : Chat.doc) : M Store :=
  _ <- validate Chat.schema (Chat.cells c);;
  _ <- connected;;
  if duplicate_key Chat.schema (map Chat.cells (chats st)) (Chat.cells c)
  then Throw MongoError
  else Ok (with_chats st (chats st ++ [c])).

(** [UserSchema.pre('save')] *)
Definition User_pre_save (isModified_password : bool) (this : User.doc)
  : User.doc :=
  if negb isModified_password then this else
  let salt := bcrypt_genSalt w 10 in
  {| User._id := User._id this;
     User.username := User.username this;
     User.password := bcrypt_hash w (User.password this) salt |}.

(** [UserSchema.methods.comparePassword]: an async function, so the caller
    gets a promise.  bcrypt rejects when it is given no candidate. *)
Definition comparePassword (this : User.doc) (candidatePassword : field)
  : Promise bool :=
  Settled
    match candidatePassword with
    | Some candidate => Ok (bcrypt_compare w candidate (User.password this))
    | None => Throw (Error "data and hash arguments required")
    end.

(** ** The route handlers, in the order of [server.js] *)

Definition weather_url (city key : field) : string :=
  "https://api.openweathermap.org/data/2.5/weather?q=" ++ interpolate city
  ++ "&appid=" ++ interpolate key ++ "&units=metric".

(** [app.get('/api/weather', ...)], first definition *)
Definition get_api_weather_1 (st : Store) (city : field) : Response * Store :=
  try_catch
    (if falsy city
     then Ok (res_status_json 400 (JsonError "City is required"), st)
     else if falsy (OPENWEATHER_API_KEY w)
     then Ok (res_status_json 500 (JsonError "API key is missing"), st)
     else
       let url := weather_url city (OPENWEATHER_API_KEY w) in
       data <- axios_get url;;
       Ok (res_json (JsonData data), st))
    (fun _ =>
       (res_status_json 500 (JsonError "Failed to fetch weather data"), st)).

(** What a handler did with the request: it sent a response, or it passed an
    error on with [next(err)]; it sent a response and left behind a rejected
    promise that nobody awaits; or it returned without a response and
    without [next]. *)
Inductive Handled :=
| Sent (r : Response) (st' : Store)
| Next (err : exn)
| SentUnhandled (r : Response) (st' : Store) (rejection : exn)
| Hanging.

(** Modelled from the spec: the verify function of the local strategy that
    [config/passport.js] gives to Passport.  It looks the user up by username
    and fails if the user is absent or if the hash comparison fails; on
    success it returns the user record. *)
Definition local_strategy (st : Store) (username password : field)
  : M (option User.doc) :=
  found <- User_findOne st username;;
  match found with
  | None => Ok None
  | Some user =>
    same <- await (comparePassword user password);;
    Ok (if same then Some user else None)
  end.

(** [app.post('/login', passport.authenticate('local'), ...)].  The local
    strategy of Passport refuses missing credentials with 400 before it calls
    the verify function; a failed verification is answered 401 by Passport, an
    error of it is passed to [next].  On success the session of the request
    is saved for the user (modelled from the spec: a successful login
    establishes a server-side session for the authenticated identity) and the
    callback of the route answers. *)
Definition post_login_passport (st : Store) (username password : field)
    (sessionID : string) : M Handled :=
  if falsy username || falsy password
  then Ok (Sent (res_status_json 400 (TextBody "Bad Request")) st)
  else
    match local_strategy st username password with
    | Throw err => Ok (Next err)
    | Ok None => Ok (Sent (res_status_json 401 (TextBody "Unauthorized")) st)
    | Ok (Some user) =>
      let session := {| sid := sessionID; session_user := User._id user |} in
      Ok (Sent (res_json (JsonMessage "✅ Login successful!"))
               (with_sessions st (sessions st ++ [session])))
    end.

(** [app.get('/favicon.ico', (req, res) => res.status(204))]: the status is
    set and nothing is sent. *)
Definition get_favicon : M Handled := Ok Hanging.

Definition path_join (parts : list string) : string := String.concat "/" parts.

(** [app.get('/public/videos/:filename', ...)]: not an async function and
    without a try block.  [res.sendFile] passes a file it cannot read on to
    [next]. *)
Definition get_public_video (st : Store) (filename : string) : M Handled :=
  dir <- match dirname w with
         | Some d => Ok d
         | None => Throw (ReferenceError "__dirname")
         end;;
  let filePath := path_join [dir; "public"; "videos"; filename] in
  if file_readable w filePath
  then Ok (Sent {| status := 200; body := FileBody "video/mp4" filePath |} st)
  else Ok (Next (Error "ENOENT")).

(** [app.post('/register', ...)] *)
Definition post_register (st : Store) (username password : field)
  : Response * Store :=
  try_catch
    (if falsy username || falsy password
     then Ok (res_status_json 400 (JsonError "Missing fields"), st)
     else Ok (res_status_json 201 (JsonMessage "User registered successfully"), st))
    (fun _ => (res_status_json 500 (JsonError "Server error"), st)).

(** [app.post("/login", async ...)] *)
Definition post_login (st : Store) (username password : field)
  : Response * Store :=
  try_catch
    (found <- User_findOne st username;;
     match found with
     | None =>
       Ok (res_status_json 401 (JsonError "Invalid credentials"), st)
     | Some user =>
       if negb (truthy_promise (comparePassword user password))
       then Ok (res_status_json 401 (JsonError "Invalid credentials"), st)
       else Ok (res_json (JsonLogin "Login successful" user), st)
     end)
    (fun _ => (res_status_json 500 (JsonError "Server error"), st)).

(** The promise that the handler above makes with [comparePassword] and
    never awaits: when it is rejected, nobody handles the rejection. *)
Definition post_login_unhandled (st : Store) (username password : field)
  : option exn :=
  match User_findOne st username with
  | Ok (Some user) =>
    match comparePassword user password with
    | Settled (Throw e) => Some e
    | Settled (Ok _) => None
    end
  | _ => None
  end.

(** [app.post('/cities', ...)], run from its start to its end with no other
    request in between *)
Definition post_cities (st : Store) (auth : Auth) (city : field)
  : Response * Store :=
  try_catch
    (match (if isAuthenticated auth then user auth else None) with
     | None =>
       Ok (res_status_json 401 (JsonError "You must be logged in"), st)
     | Some u =>
       match present city with
       | None =>
         Ok (res_status_json 400 (JsonError "City name required"), st)
       | Some name =>
         existingCity <- City_findOne st name (User._id u);;
         match existingCity with
         | Some _ =>
           Ok (res_status_json 400 (JsonError "City already saved"), st)
         | None =>
           let newCity := {| City.name := name; City.userId := User._id u |} in
           st' <- City_save st newCity;;
           Ok (res_status_json 201 (JsonCitySaved "City saved" newCity), st')
         end
       end
     end)
    (fun _ => (res_status_json 500 (JsonError "Error saving city"), st)).

(** The same handler as the event loop runs it.  It is suspended at
    [await City.findOne(...)] and at [await newCity.save()]; each time it is
    resumed, the database operation it waited for has been done on the store
    as it was then. *)
Inductive SaveCity :=
| AtFindOne (u : User.doc) (name : string)
| AtSave (newCity : City.doc)
| Finished (r : Response).

(** Up to the first [await] *)
Definition post_cities_start (auth : Auth) (city : field) : SaveCity :=
  match (if isAuthenticated auth then user auth else None) with
  | None => Finished (res_status_json 401 (JsonError "You must be logged in"))
  | Some u =>
    match present city with
    | None => Finished (res_status_json 400 (JsonError "City name required"))
    | Some name => AtFindOne u name
    end
  end.

(** From one [await] to the next, or to the end *)
Definition post_cities_resume (st : Store) (k : SaveCity) : SaveCity * Store :=
  match k with
  | AtFindOne u name =>
    (try_catch
       (existingCity <- City_findOne st name (User._id u);;
        match existingCity with
        | Some _ =>
          Ok (Finished (res_status_json 400 (JsonError "City already saved")))
        | None =>
          Ok (AtSave {| City.name := name; City.userId := User._id u |})
        end)
       (fun _ => Finished (res_status_json 500 (JsonError "Error saving city"))),
     st)
  | AtSave newCity =>
    try_catch
      (st' <- City_save st newCity;;
       Ok (Finished (res_status_json 201 (JsonCitySaved "City saved" newCity)),
           st'))
      (fun _ =>
         (Finished (res_status_json 500 (JsonError "Error saving city")), st))
  | Finished r => (k, st)
  end.

(** The handler resumed twice in a row *)
Definition post_cities_alone (st : Store) (auth : Auth) (city : field)
  : SaveCity * Store :=
  let (k1, st1) := post_cities_resume st (post_cities_start auth city) in
  post_cities_resume st1 k1.

(** [app.get('/cities', ...)] *)
Definition get_cities (st : Store) (auth : Auth) : Response * Store :=
  try_catch
    (match (if isAuthenticated auth then user auth else None) with
     | None => Ok (res_status_json 401 (JsonError "Not authenticated"), st)
     | Some u =>
       found <- City_find st (User._id u);;
       Ok (res_json (JsonCities found), st)
     end)
    (fun _ =>
       (res_status_json 500 (JsonError "Server error while fetching cities"), st)).

(** The check on [process.env.OPENAI_API_KEY] that the module runs when it
    is loaded. *)
Inductive Startup :=
| Exit (code : Z)
| Started.

Definition startup_check : Startup :=
  match present (OPENAI_API_KEY w) with
  | None => Exit 1
  | Some key => if negb (startsWith key "sk-") then Exit 1 else Started
  end.

Definition please_type : string := "Please type something.".

Definition apology : string :=
  "I'm having trouble thinking right now. Try again later.".

(** [content.trim()]: only a string has the method. *)
Definition call_trim (v : value) : M string :=
  match v with
  | VStr s => Ok (trim s)
  | _ => Throw TypeError
  end.

(** [aiResponse.choices[0].message.content.trim()], after the guard on
    [aiResponse] and [aiResponse.choices] *)
Definition reply_of (aiResponse : value) : M string :=
  guard <- (if negb (truthy aiResponse) then Ok false
            else choices <- get_prop aiResponse "choices";; Ok (truthy choices));;
  if negb guard then Throw (Error "Invalid AI response") else
  choices <- get_prop aiResponse "choices";;
  first <- get_index choices 0;;
  message <- get_prop first "message";;
  content <- get_prop message "content";;
  call_trim content.

(** [app.post("/chat", ...)] *)
Definition post_chat (st : Store) (message : field) : Response * Store :=
  try_catch
    (match present message with
     | None => Ok (res_json (JsonChat please_type), st)
     | Some userMessage =>
       aiResponse <- completions_create w userMessage;;
       botMessage <- reply_of aiResponse;;
       let chat := {| Chat.userMessage := userMessage;
                      Chat.botMessage := botMessage;
                      Chat.createdAt := Date_now w |} in
       st' <- Chat_save st chat;;
       Ok (res_json (JsonChat botMessage), st')
     end)
    (fun _ => (res_json (JsonChat apology), st)).

(** No declaration of [API_KEY] is in scope of the second weather handler. *)
Definition API_KEY : M field := Throw (ReferenceError "API_KEY").

(** [app.get("/api/weather", ...)], second definition: the URL is built before
    the try block is entered. *)
Definition get_api_weather_2 (st : Store) (city : field) : M (Response * Store) :=
  if falsy city
  then Ok (res_status_json 400 (JsonError "City name required"), st)
  else
    key <- API_KEY;;
    let url := weather_url city key in
    Ok (try_catch
          (response <- fetch url;;
           data <- response_json response;;
           Ok (res_json (JsonData data), st))
          (fun _ =>
             (res_status_json 500 (JsonError "Failed to fetch weather data"), st))).

(** The global error-handling middleware *)
Definition error_middleware (err : exn) : Response :=
  res_status_json 500 (JsonError "Something went wrong").

(** ** The application: routes in registration order

    The routes that read no request field, call no collaborator and always
    answer ([/api/getApiKey], [/test], [/api]) are left out of the table, and
    the static middleware is taken to find no file for the paths below. *)

Inductive Request :=
| GET_api_weather (city : field)
| GET_public_video (filename : string)
| POST_register (username password : field)
| POST_login (username password : field) (sessionID : string)
| GET_favicon
| POST_cities (auth : Auth) (city : field)
| GET_cities (auth : Auth)
| POST_chat (message : field).

(** A route answers the requests it matches; [is_async] tells whether its
    handler is an async function. *)
Record Route := {
  is_async : bool;
  handle : Store -> Request -> option (M Handled)
}.

Definition sent (r : Response * Store) : option (M Handled) :=
  Some (Ok (Sent (fst r) (snd r))).

Definition routes : list Route :=
  [ {| is_async := false;
       handle st req := match req with
                        | POST_login u p sessionID =>
                          Some (post_login_passport st u p sessionID)
                        | _ => None
                        end |};
    {| is_async := true;
       handle st req := match req with
                        | GET_api_weather city => sent (get_api_weather_1 st city)
                        | _ => None
                        end |};
    {| is_async := false;
       handle st req := match req with
                        | GET_favicon => Some get_favicon
                        | _ => None
                        end |};
    {| is_async := false;
       handle st req := match req with
                        | GET_public_video f => Some (get_public_video st f)
                        | _ => None
                        end |};
    {| is_async := true;
       handle st req := match req with
                        | POST_register u p => sent (post_register st u p)
                        | _ => None
                        end |};
    {| is_async := true;
       handle st req := match req with
                        | POST_login u p _ =>
                          let r := post_login st u p in
                          Some (Ok match post_login_unhandled st u p with
                                   | Some e => SentUnhandled (fst r) (snd r) e
                                   | None => Sent (fst r) (snd r)
                                   end)
                        | _ => None
                        end |};
    {| is_async := true;
       handle st req := match req with
                        | POST_cities a c => sent (post_cities st a c)
                        | _ => None
                        end |};
    {| is_async := true;
       handle st req := match req with
                        | GET_cities a => sent (get_cities st a)
                        | _ => None
                        end |};
    {| is_async := true;
       handle st req := match req with
                        | POST_chat m => sent (post_chat st m)
                        | _ => None
                        end |};
    {| is_async := true;
       handle st req := match req with
                        | GET_api_weather city =>
                          Some (r <- get_api_weather_2 st city;;
                                Ok (Sent (fst r) (snd r)))
                        | _ => None
                        end |} ].

Inductive Served :=
| Replied (r : Response) (st' : Store)
| UnhandledRejection (e : exn)
| NotFound
| RepliedUnhandled (r : Response) (st' : Store) (e : exn)
| NoAnswer.

(** Express gives the request to the first route that matches it.  An error
    passed to [next], or thrown by a handler that is not async, reaches the
    error middleware; the rejection of an async handler reaches nobody.  A
    handler that neither answers nor calls [next] leaves the request without
    an answer. *)
Fixpoint dispatch (rs : list Route) (st : Store) (req : Request) : Served :=
  match rs with
  | [] => NotFound
  | r :: rest =>
    match handle r st req with
    | None => dispatch rest st req
    | Some (Ok (Sent resp st')) => Replied resp st'
    | Some (Ok (Next err)) => Replied (error_middleware err) st
    | Some (Ok (SentUnhandled resp st' e)) => RepliedUnhandled resp st' e
    | Some (Ok Hanging) => NoAnswer
    | Some (Throw e) =>
      if is_async r then UnhandledRejection e
      else Replied (error_middleware e) st
    end
  end.

Definition app (st : Store) (req : Request) : Served := dispatch routes st req.

(** The process: an unhandled rejection ends it, as Node.js does by default
    from version 15 on. *)
Inductive Process :=
| Running (st : Store)
| Exited (code : Z).





Definition serve (p : Process) (req : Request) : Process * option Response :=
  match p with
  | Exited _ => (p, None)
  | Running st =>
    match app st req with
    | Replied r st' => (Running st', Some r)
    | UnhandledRejection _ => (Exited 1, None)
    | NotFound => (Running st, None)
    | RepliedUnhandled r _ _ => (Exited 1, Some r)
    | NoAnswer => (Running st, None)
    end
  end.

End Handlers.

(** ** Reference descriptions used by the statements *)

(** Element 0 of an array, or of an object that has a property [0]. *)
Definition first_choice (choices : value) : value :=
  match choices with
  | VArr items => nth 0 items VUndef
  | VObj props => lookup "0" props
  | _ => VUndef
  end.

(** The reply text of a completion: the string [content] of the object
    [message] of its first choice.  A completion without one is absent or
    malformed. *)
Definition reply_text (completion : value) : option string :=
  match completion with
  | VObj props =>
    match first_choice (lookup "choices" props) with
    | VObj choice =>
      match lookup "message" choice with
      | VObj message =>
        match lookup "content" message with
        | VStr text => Some text
        | _ => None
        end
      | _ => None
      end
    | _ => None
    end
  | _ => None
  end.

Definition pair_of (c : City.doc) : string * ObjectId :=
  (City.name c, City.userId c).

(** No two stored cities have the same name and the same owner. *)
Definition pairs_unique (st : Store) : Prop := NoDup (map pair_of (cities st)).

Definition is_pair (name : string) (userId : ObjectId) (c : City.doc) : bool :=
  (City.name c =? name) && (City.userId c =? userId).

Definition count_pair (name : string) (userId : ObjectId) (st : Store) : nat :=
  List.length (filter (is_pair name userId) (cities st)).

(** What the login handler would do if it awaited the comparison. *)
Definition post_login_awaited (w : World) (st : Store) (username password : field)
  : Response * Store :=
  try_catch
    (found <- User_findOne w st username;;
     match found with
     | None =>
       Ok (res_status_json 401 (JsonError "Invalid credentials"), st)
     | Some user =>
       same <- await (comparePassword w user password);;
       if negb same
       then Ok (res_status_json 401 (JsonError "Invalid credentials"), st)
       else Ok (res_json (JsonLogin "Login successful" user), st)
     end)
    (fun _ => (res_status_json 500 (JsonError "Server error"), st)).

(** The record a successful chat appends. *)
Definition chat_record (w : World) (message text : string) : Chat.doc :=
  {| Chat.userMessage := message;
     Chat.botMessage := trim text;
     Chat.createdAt := Date_now w |}.

(** The metric-units current-weather URL for a city and a key. *)
Definition metric_url (city key : string) : string :=
  "https://api.openweathermap.org/data/2.5/weather?q=" ++ city
  ++ "&appid=" ++ key ++ "&units=metric".

Definition is_2xx (code : Z) : bool := ((200 <=? code) && (code <? 300))%Z.


(** A world and a store to run the handlers on. *)
Module Fixture.

Definition hash (plain salt : string) : string := "$2b$10$" ++ salt ++ "." ++ plain.

Definition completion (content : string) : value :=
  VObj [("id", VStr "chatcmpl-1");
        ("choices",
         VArr [VObj [("index", VNum 0);
                     ("message", VObj [("role", VStr "assistant");
                                       ("content", VStr content)])]])].

Definition world : World :=
  {| OPENWEATHER_API_KEY := Some "owm";
     OPENAI_API_KEY := Some "sk-test";
     dirname := None;
     mongo_up := true;
     http := fun _ =>
       HttpResponse 200 (JsonText (VObj [("main", VObj [("temp", VNum 21)])]));
     completions_create := fun _ => Ok (completion "  Sunny today. ");
     file_readable := fun _ => false;
     bcrypt_genSalt := fun _ => "saltsaltsaltsaltsaltsa";
     bcrypt_hash := hash;
     bcrypt_compare := fun candidate stored =>
       stored =? hash candidate "saltsaltsaltsaltsaltsa";
     Date_now := 1700000000000 |}.

Definition with_http (w : World) (h : string -> HttpOutcome) : World :=
  {| OPENWEATHER_API_KEY := OPENWEATHER_API_KEY w;
     OPENAI_API_KEY := OPENAI_API_KEY w;
     dirname := dirname w;
     mongo_up := mongo_up w;
     http := h;
     completions_create := completions_create w;
     file_readable := file_readable w;
     bcrypt_genSalt := bcrypt_genSalt w;
     bcrypt_hash := bcrypt_hash w;
     bcrypt_compare := bcrypt_compare w;
     Date_now := Date_now w |}.

Definition with_completions (w : World) (f : string -> M value) : World :=
  {| OPENWEATHER_API_KEY := OPENWEATHER_API_KEY w;
     OPENAI_API_KEY := OPENAI_API_KEY w;
     dirname := dirname w;
     mongo_up := mongo_up w;
     http := http w;
     completions_create := f;
     file_readable := file_readable w;
     bcrypt_genSalt := bcrypt_genSalt w;
     bcrypt_hash := bcrypt_hash w;
     bcrypt_compare := bcrypt_compare w;
     Date_now := Date_now w |}.


Definition with_mongo (w : World) (up : bool) : World :=
  {| OPENWEATHER_API_KEY := OPENWEATHER_API_KEY w;
     OPENAI_API_KEY := OPENAI_API_KEY w;
     dirname := dirname w;
     mongo_up := up;
     http := http w;
     completions_create := completions_create w;
     file_readable := file_readable w;
     bcrypt_genSalt := bcrypt_genSalt w;
     bcrypt_hash := bcrypt_hash w;
     bcrypt_compare := bcrypt_compare w;
     Date_now := Date_now w |}.

Definition alice : User.doc :=
  {| User._id := "64b000000000000000000001";
     User.username := "alice";
     User.password := hash "correct horse" "saltsaltsaltsaltsaltsa" |}.

Definition bob : User.doc :=
  {| User._id := "64b000000000000000000002";
     User.username := "bob";
     User.password := hash "hunter2" "saltsaltsaltsaltsaltsa" |}.

Definition empty : Store :=
  {| users := []; cities := []; chats := []; sessions := [] |}.

Definition store : Store :=
  {| users := [alice; bob];
     cities := [ {| City.name := "Paris"; City.userId := User._id alice |};
                 {| City.name := "Oslo"; City.userId := User._id bob |} ];
     chats := [];
     sessions := [] |}.

Definition as_user (u : User.doc) : Auth :=
  {| isAuthenticated := true; user := Some u |}.

Definition load_env : LoadEnv :=
  {| MONGO_URI := Some "mongodb://db.example/app";
     connectDB := Ok tt;
     MongoStore_connect := Ok tt;
     Twilio_new := Ok tt |}.


End Fixture.

(** ** The other functions of [server.js] *)

(** [app.get("/api/getApiKey", ...)]: [process.env.OPENWEATHER_API_KEY || ""] *)
Definition get_api_getApiKey (w : World) : Response :=
  res_json
    (JsonData
       (VObj [("apiKey",
               VStr match present (OPENWEATHER_API_KEY w) with
                    | Some key => key
                    | None => ""
                    end)])).

(** The key given to the completion client,
    [process.env.OPENAI_API_KEY.trim()] *)
Definition openai_apiKey (w : World) : M string :=
  match OPENAI_API_KEY w with
  | Some key => Ok (trim key)
  | None => Throw TypeError
  end.

(** [response.ok] *)
Definition response_ok (response : Z * HttpBody) : bool := is_2xx (fst response).

(** [const apiKey] of the alerts helper *)
Definition apiKey : string := "2149cbc5da7384b8ef7bcccf62b0bf68".

Definition alerts_url (city : field) : string :=
  "https://api.openweathermap.org/data/2.5/weather?q=" ++ interpolate city
  ++ "&appid=" ++ apiKey.

(** [fetchWeatherAlerts(city)]: [null] is the answer to every failure. *)
Definition fetchWeatherAlerts (w : World) (city : field) : value :=
  try_catch
    (response <- fetch w (alerts_url city);;
     if negb (response_ok response)
     then Throw (Error "No weather alerts available")
     else response_json response)
    (fun _ => VNull).

(** [fetchWeatherData(city)].  The message of the error thrown for a status
    outside 2xx goes to the console only and is cut short here. *)
Definition fetchWeatherData (w : World) (city : field) : value :=
  try_catch
    (if falsy city then Throw (Error "City name is required") else
     response <- fetch w (weather_url city (OPENWEATHER_API_KEY w));;
     if negb (response_ok response) then Throw (Error "API Error") else
     data <- response_json response;;
     invalid <- (if negb (truthy data) then Ok true
                 else main <- get_prop data "main";; Ok (negb (truthy main)));;
     if invalid then Throw (Error "Invalid weather data received")
     else Ok data)
    (fun _ => VNull).

(** The stored cities of one user. *)
Definition cities_of (userId : ObjectId) (st : Store) : list City.doc :=
  filter (fun c => City.userId c =? userId) (cities st).

(** ** Basic facts about the collaborators *)

Section Facts.

Variable w : World.
Hypothesis db_up : mongo_up w = true.

Lemma connected_up : connected w = Ok tt.
Proof. unfold connected. now rewrite db_up. Qed.

Lemma User_findOne_up st username :
  User_findOne w st (Some username)
  = Ok (find (fun u => User.username u =? username) (users st)).
Proof. unfold User_findOne. now rewrite connected_up. Qed.

Lemma City_findOne_up st name userId :
  City_findOne w st name userId = Ok (find (is_pair name userId) (cities st)).
Proof. unfold City_findOne. now rewrite connected_up. Qed.

Lemma City_find_up st userId :
  City_find w st userId
  = Ok (filter (fun c => City.userId c =? userId) (cities st)).
Proof. unfold City_find. now rewrite connected_up. Qed.

Lemma City_save_up st name userId :
  name <> "" ->
  City_save w st {| City.name := name; City.userId := userId |}
  = Ok (with_cities st (cities st ++ [{| City.name := name; City.userId := userId |}])).
Proof.
  intros Hname. apply String.eqb_neq in Hname.
  unfold City_save, validate. cbn. rewrite Hname. cbn.
  now rewrite connected_up.
Qed.

Lemma Chat_save_up st userMessage botMessage at_ :
  userMessage <> "" -> botMessage <> "" ->
  Chat_save w st {| Chat.userMessage := userMessage;
                    Chat.botMessage := botMessage;
                    Chat.createdAt := at_ |}
  = Ok (with_chats st (chats st ++ [{| Chat.userMessage := userMessage;
                                       Chat.botMessage := botMessage;
                                       Chat.createdAt := at_ |}])).
Proof.
  intros Hu Hb. apply String.eqb_neq in Hu, Hb.
  unfold Chat_save, validate. cbn. rewrite Hu, Hb. cbn.
  now rewrite connected_up.
Qed.

End Facts.

(** The schema refuses a chat whose bot message is empty, whatever the state
    of the database. *)
Lemma Chat_save_blank w st userMessage at_ :
  Chat_save w st {| Chat.userMessage := userMessage;
                    Chat.botMessage := "";
                    Chat.createdAt := at_ |}
  = Throw (ValidationError (if userMessage =? "" then "userMessage" else "botMessage")).
Proof.
  unfold Chat_save, validate. cbn. now destruct (userMessage =? "").
Qed.

Lemma present_some s : s <> "" -> present (Some s) = Some s.
Proof.
  intros H. apply String.eqb_neq in H.
  unfold present, falsy. cbn. now rewrite H.
Qed.

Lemma present_falsy f : falsy f = true -> present f = None.
Proof. unfold present. now intros ->. Qed.

Lemma falsy_some s : s <> "" -> falsy (Some s) = false.
Proof.
  intros H. apply String.eqb_neq in H. unfold falsy. cbn. now rewrite H.
Qed.

Lemma falsy_cases f : falsy f = true <-> f = None \/ f = Some "".
Proof.
  unfold falsy. destruct f as [s|]; cbn.
  - rewrite negb_involutive, String.eqb_eq. split.
    + intros ->. now right.
    + intros [H|H]; congruence.
  - split; auto.
Qed.

(** The handler's walk through the completion finds the reply text exactly
    when the completion has one. *)
Lemma reply_of_some v text :
  reply_text v = Some text -> reply_of v = Ok (trim text).
Proof.
  destruct v as [| | | | |items|props]; cbn; try discriminate.
  unfold reply_of. cbn.
  destruct (lookup "choices" props) as [| | | | |items|cprops]; cbn; try discriminate.
  - destruct items as [|first rest]; cbn; try discriminate.
    destruct first as [| | | | | |choice]; cbn; try discriminate.
    destruct (lookup "message" choice) as [| | | | | |message]; cbn; try discriminate.
    destruct (lookup "content" message); cbn; try discriminate.
    now intros [= ->].
  - change (index_key 0) with "0".
    destruct (lookup "0" cprops) as [| | | | | |choice]; cbn; try discriminate.
    destruct (lookup "message" choice) as [| | | | | |message]; cbn; try discriminate.
    destruct (lookup "content" message); cbn; try discriminate.
    now intros [= ->].
Qed.

Lemma reply_of_none v :
  reply_text v = None -> exists e, reply_of v = Throw e.
Proof.
  unfold reply_of.
  destruct v as [| |b|z|s|items|props]; cbn; eauto.
  - destruct b; cbn; eauto.
  - destruct (z =? 0)%Z; cbn; eauto.
  - destruct (s =? ""); cbn; eauto.
  - destruct (lookup "choices" props) as [| |b|z|s|items|cprops]; cbn; eauto.
    + destruct b; cbn; eauto.
    + destruct (z =? 0)%Z; cbn; eauto.
    + destruct (s =? "") eqn:E; cbn; eauto.
      unfold char_at. destruct s; cbn in *; [discriminate|eauto].
    + destruct items as [|first rest]; cbn; eauto.
      destruct first as [| | | | | |choice]; cbn; eauto.
      destruct (lookup "message" choice) as [| | | | | |message]; cbn; eauto.
      destruct (lookup "content" message); cbn; eauto; discriminate.
    + change (index_key 0) with "0".
      destruct (lookup "0" cprops) as [| | | | | |choice]; cbn; eauto.
      destruct (lookup "message" choice) as [| | | | | |message]; cbn; eauto.
      destruct (lookup "content" message); cbn; eauto; discriminate.
Qed.

(** ** Login and registration *)

(** A username that no stored user has is refused with 401, and the store,
    sessions included, is left as it was. *)
Lemma post_login_unknown_user w st username password :
  mongo_up w = true ->
  find (fun u => User.username u =? username) (users st) = None ->
  post_login w st (Some username) password
  = (res_status_json 401 (JsonError "Invalid credentials"), st).
Proof.
  intros Hup Hnone. unfold post_login.
  rewrite (@User_findOne_up w Hup). cbn. now rewrite Hnone.
Qed.

(** The second [/login] handler tests the promise returned by
    [comparePassword] instead of its outcome: for a stored user whose hash
    bcrypt finds different from the submitted password, it responds 200 with
    the user record, where the awaited comparison gives 401.  No request
    reaches this handler, the first route for the path answers them all. *)
Theorem post_login_wrong_password_accepted w st username password u :
  mongo_up w = true ->
  find (fun u => User.username u =? username) (users st) = Some u ->
  bcrypt_compare w password (User.password u) = false ->
  post_login w st (Some username) (Some password)
  = (res_json (JsonLogin "Login successful" u), st)
  /\ post_login_awaited w st (Some username) (Some password)
     = (res_status_json 401 (JsonError "Invalid credentials"), st).
Proof.
  intros Hup Hfound Hwrong. unfold post_login, post_login_awaited.
  rewrite (@User_findOne_up w Hup). cbn. rewrite Hfound. cbn.
  now rewrite Hwrong.
Qed.

Lemma post_login_wrong_password_accepted_witness :
  status (fst (post_login Fixture.world Fixture.store (Some "alice") (Some "guess")))
  = 200%Z.
Proof.
  rewrite (proj1 (@post_login_wrong_password_accepted
                    Fixture.world Fixture.store "alice" "guess" Fixture.alice
                    eq_refl eq_refl eq_refl)).
  reflexivity.
Defined.



(** Were the second handler reached, a login of a stored user without a
    password would be answered 200 and then end the process, the rejected
    comparison being handled by nobody. *)
Lemma post_login_absent_password_unhandled w st username u :
  User_findOne w st username = Ok (Some u) ->
  exists e, post_login_unhandled w st username None = Some e.
Proof.
  intros Hfound. unfold post_login_unhandled. rewrite Hfound. cbn. eauto.
Qed.



(** C2: registering and then logging in with the same credentials should
    succeed.  The register handler answers 201 without writing anything: the
    store is unchanged, so a user who was not stored before is still unknown
    to the login that follows, which answers 401. *)
Theorem register_then_login_rejected w st username password :
  mongo_up w = true ->
  username <> "" -> password <> "" ->
  find (fun u => User.username u =? username) (users st) = None ->
  post_register st (Some username) (Some password)
  = (res_status_json 201 (JsonMessage "User registered successfully"), st)
  /\ post_login w (snd (post_register st (Some username) (Some password)))
       (Some username) (Some password)
     = (res_status_json 401 (JsonError "Invalid credentials"), st).
Proof.
  intros Hup Hu Hp Hnone.
  assert (Hreg : post_register st (Some username) (Some password)
                 = (res_status_json 201 (JsonMessage "User registered successfully"), st)).
  { unfold post_register. now rewrite (falsy_some Hu), (falsy_some Hp). }
  split; [exact Hreg|].
  rewrite Hreg. cbn [snd]. now apply post_login_unknown_user.
Qed.

Lemma register_then_login_rejected_witness :
  status (fst (post_login Fixture.world
                 (snd (post_register Fixture.empty
                         (Some "carol") (Some "s3cret")))
                 (Some "carol") (Some "s3cret")))
  = 401%Z.
Proof.
  rewrite (proj2 (@register_then_login_rejected
                    Fixture.world Fixture.empty "carol" "s3cret"
                    eq_refl ltac:(discriminate) ltac:(discriminate) eq_refl)).
  reflexivity.
Defined.

(** ** Chat *)

(** C7: a chat request whose message is missing or empty gets the fixed
    prompt with status 200 and leaves the store, hence the Chat collection,
    unchanged. *)
Theorem post_chat_empty_message w st message :
  falsy message = true ->
  post_chat w st message = (res_json (JsonChat "Please type something."), st)
  /\ status (fst (post_chat w st message)) = 200%Z
  /\ chats (snd (post_chat w st message)) = chats st.
Proof.
  intros Hfalsy.
  assert (H : post_chat w st message
              = (res_json (JsonChat "Please type something."), st)).
  { unfold post_chat. now rewrite (present_falsy _ Hfalsy). }
  rewrite H. repeat split.
Qed.

Lemma post_chat_empty_message_witness :
  post_chat Fixture.world Fixture.store (Some "")
  = (res_json (JsonChat "Please type something."), Fixture.store)
  /\ post_chat Fixture.world Fixture.store None
     = (res_json (JsonChat "Please type something."), Fixture.store).
Proof.
  split.
  - exact (proj1 (@post_chat_empty_message Fixture.world Fixture.store (Some "") eq_refl)).
  - exact (proj1 (@post_chat_empty_message Fixture.world Fixture.store None eq_refl)).
Defined.

(** C5: for a non-empty message, when the completion call throws, or returns
    nothing or a value without a reply text, the chat handler answers 200
    with the apology and writes nothing. *)
Theorem post_chat_upstream_failure w st message :
  message <> "" ->
  (exists e, completions_create w message = Throw e)
  \/ (exists v, completions_create w message = Ok v /\ reply_text v = None) ->
  post_chat w st (Some message) = (res_json (JsonChat apology), st)
  /\ status (fst (post_chat w st (Some message))) = 200%Z.
Proof.
  intros Hmsg Hfail.
  assert (H : post_chat w st (Some message) = (res_json (JsonChat apology), st)).
  { unfold post_chat. rewrite (present_some Hmsg).
    destruct Hfail as [[e He]|[v [Hv Hnone]]].
    - now rewrite He.
    - rewrite Hv. cbn. destruct (@reply_of_none _ Hnone) as [e ->]. reflexivity. }
  rewrite H. split; reflexivity.
Qed.

Lemma post_chat_upstream_failure_witness :
  post_chat (Fixture.with_completions Fixture.world (fun _ => Throw NetworkFailure))
    Fixture.store (Some "hello")
  = (res_json (JsonChat apology), Fixture.store)
  /\ post_chat (Fixture.with_completions Fixture.world
                  (fun _ => Ok (VObj [("choices", VArr [])])))
       Fixture.store (Some "hello")
     = (res_json (JsonChat apology), Fixture.store)
  /\ post_chat (Fixture.with_completions Fixture.world (fun _ => Ok VUndef))
       Fixture.store (Some "hello")
     = (res_json (JsonChat apology), Fixture.store).
Proof.
  split; [|split].
  - refine (proj1 (@post_chat_upstream_failure _ Fixture.store "hello" _ _)).
    + discriminate.
    + left. now exists NetworkFailure.
  - refine (proj1 (@post_chat_upstream_failure _ Fixture.store "hello" _ _)).
    + discriminate.
    + right. exists (VObj [("choices", VArr [])]). split; reflexivity.
  - refine (proj1 (@post_chat_upstream_failure _ Fixture.store "hello" _ _)).
    + discriminate.
    + right. exists VUndef. split; reflexivity.
Defined.

(** C4 as stated fails in two ways.  When the reply is blank its trimmed
    text is empty, the Chat schema requires a bot message and the save is
    refused; when the database is down the save fails as well.  Either way
    the handler answers with the apology and appends nothing. *)
Lemma post_chat_reply_counterexample :
  let w := Fixture.with_completions Fixture.world
             (fun _ => Ok (Fixture.completion "   ")) in
  let down := Fixture.with_mongo Fixture.world false in
  (completions_create w "hello" = Ok (Fixture.completion "   ")
   /\ reply_text (Fixture.completion "   ") = Some "   "
   /\ post_chat w Fixture.store (Some "hello")
      = (res_json (JsonChat apology), Fixture.store)
   /\ post_chat w Fixture.store (Some "hello")
      <> (res_json (JsonChat (trim "   ")),
          with_chats Fixture.store
            (chats Fixture.store ++ [chat_record w "hello" "   "])))
  /\ (completions_create down "hello" = Ok (Fixture.completion "  Sunny today. ")
      /\ reply_text (Fixture.completion "  Sunny today. ") = Some "  Sunny today. "
      /\ post_chat down Fixture.store (Some "hello")
         = (res_json (JsonChat apology), Fixture.store)
      /\ post_chat down Fixture.store (Some "hello")
         <> (res_json (JsonChat (trim "  Sunny today. ")),
             with_chats Fixture.store
               (chats Fixture.store
                ++ [chat_record down "hello" "  Sunny today. "]))).
Proof.
  cbv zeta. split; repeat split; discriminate.
Qed.

(** C4 (amended): for a non-empty message and a completion whose reply text
    is not blank, with the database up, the chat handler answers 200 with
    the trimmed reply text and appends exactly one Chat record, holding the
    submitted message and the trimmed reply. *)
Theorem post_chat_reply w st message v text :
  mongo_up w = true ->
  message <> "" ->
  completions_create w message = Ok v ->
  reply_text v = Some text ->
  trim text <> "" ->
  post_chat w st (Some message)
  = (res_json (JsonChat (trim text)),
     with_chats st (chats st ++ [chat_record w message text]))
  /\ Chat.userMessage (chat_record w message text) = message
  /\ Chat.botMessage (chat_record w message text) = trim text.
Proof.
  intros Hup Hmsg Hv Htext Hkept.
  split; [|split; reflexivity].
  unfold post_chat. rewrite (present_some Hmsg), Hv. cbn.
  rewrite (@reply_of_some _ _ Htext). cbn.
  now rewrite (@Chat_save_up w Hup st _ _ (Date_now w) Hmsg Hkept).
Qed.

Lemma post_chat_reply_witness :
  post_chat Fixture.world Fixture.store (Some "weather?")
  = (res_json (JsonChat "Sunny today."),
     with_chats Fixture.store
       [{| Chat.userMessage := "weather?";
           Chat.botMessage := "Sunny today.";
           Chat.createdAt := Date_now Fixture.world |}]).
Proof.
  exact (proj1 (@post_chat_reply Fixture.world Fixture.store "weather?"
                  (Fixture.completion "  Sunny today. ") "  Sunny today. "
                  eq_refl ltac:(discriminate) eq_refl eq_refl
                  ltac:(discriminate))).
Defined.

(** ** Saved cities *)

Lemma is_pair_spec name userId c :
  is_pair name userId c = true <-> pair_of c = (name, userId).
Proof.
  unfold is_pair, pair_of. rewrite andb_true_iff, !String.eqb_eq.
  split.
  - now intros [-> ->].
  - now intros [= -> ->].
Qed.

Lemma find_pair_none name userId cs :
  find (is_pair name userId) cs = None <-> ~ In (name, userId) (map pair_of cs).
Proof.
  induction cs as [|c cs IH]; cbn.
  - tauto.
  - destruct (is_pair name userId c) eqn:E.
    + apply is_pair_spec in E. split; [discriminate|]. intros H. destruct H. now left.
    + rewrite IH. split.
      * intros Hn [Hc|Hin]; [|tauto].
        apply is_pair_spec in Hc. congruence.
      * tauto.
Qed.

Lemma count_absent name userId cs :
  ~ In (name, userId) (map pair_of cs) ->
  List.length (filter (is_pair name userId) cs) = 0.
Proof.
  induction cs as [|c cs IH]; cbn; intros Hn; [reflexivity|].
  destruct (is_pair name userId c) eqn:E.
  - apply is_pair_spec in E. destruct Hn. now left.
  - apply IH. tauto.
Qed.

Lemma count_present name userId cs :
  NoDup (map pair_of cs) ->
  In (name, userId) (map pair_of cs) ->
  List.length (filter (is_pair name userId) cs) = 1.
Proof.
  induction cs as [|c cs IH]; cbn; intros Hnd Hin; [contradiction|].
  inversion Hnd as [|? ? Hnotin Hnd']; subst.
  destruct (is_pair name userId c) eqn:E.
  - apply is_pair_spec in E. cbn. f_equal.
    apply count_absent. now rewrite <- E.
  - destruct Hin as [Hc|Hin].
    + apply is_pair_spec in Hc. congruence.
    + now apply IH.
Qed.

Lemma count_app name userId cs ds :
  List.length (filter (is_pair name userId) (cs ++ ds))
  = List.length (filter (is_pair name userId) cs)
    + List.length (filter (is_pair name userId) ds).
Proof. now rewrite filter_app, length_app. Qed.

Lemma pairs_unique_snoc cs name userId :
  NoDup (map pair_of cs) ->
  ~ In (name, userId) (map pair_of cs) ->
  NoDup (map pair_of (cs ++ [{| City.name := name; City.userId := userId |}])).
Proof.
  intros Hnd Hn. rewrite map_app. apply NoDup_app; auto.
  - cbn. constructor; [tauto|constructor].
  - intros a Ha [<-|[]]. now apply Hn.
Qed.

(** What saving a city does for a logged-in user, a non-empty name and a
    database that is up. *)
Lemma post_cities_logged_in w st auth u name :
  mongo_up w = true ->
  isAuthenticated auth = true -> user auth = Some u ->
  name <> "" ->
  post_cities w st auth (Some name)
  = match find (is_pair name (User._id u)) (cities st) with
    | Some _ => (res_status_json 400 (JsonError "City already saved"), st)
    | None =>
      let newCity := {| City.name := name; City.userId := User._id u |} in
      (res_status_json 201 (JsonCitySaved "City saved" newCity),
       with_cities st (cities st ++ [newCity]))
    end.
Proof.
  intros Hup Hauth Huser Hname. unfold post_cities.
  rewrite Hauth, Huser, (present_some Hname), (@City_findOne_up w Hup). cbn.
  destruct (find (is_pair name (User._id u)) (cities st)); [reflexivity|].
  now rewrite (@City_save_up w Hup st name (User._id u) Hname).
Qed.

(** Whatever the request and the world, the handler leaves the store alone
    or appends one city whose pair was not stored. *)
Lemma post_cities_store w st auth city :
  snd (post_cities w st auth city) = st
  \/ exists name userId,
       ~ In (name, userId) (map pair_of (cities st))
       /\ snd (post_cities w st auth city)
          = with_cities st (cities st ++ [{| City.name := name; City.userId := userId |}]).
Proof.
  unfold post_cities.
  destruct (if isAuthenticated auth then user auth else None) as [u|]; [|now left].
  destruct (present city) as [name|]; [|now left].
  unfold City_findOne, City_save, connected.
  destruct (mongo_up w); [|now left]. cbn.
  destruct (find _ (cities st)) eqn:Hfind; [now left|].
  destruct (name =? ""); cbn; [now left|].
  right. exists name, (User._id u). split; [|reflexivity].
  now apply find_pair_none.
Qed.

(** Saving twice with the handler run from start to end each time. *)
Theorem post_cities_twice w st auth u name :
  pairs_unique st ->
  (forall w' auth' city', pairs_unique (snd (post_cities w' st auth' city')))
  /\ (mongo_up w = true ->
      isAuthenticated auth = true -> user auth = Some u ->
      name <> "" ->
      let st1 := snd (post_cities w st auth (Some name)) in
      let second := post_cities w st1 auth (Some name) in
      fst second = res_status_json 400 (JsonError "City already saved")
      /\ count_pair name (User._id u) (snd second) = 1
      /\ pairs_unique (snd second)).
Proof.
  intros Hinv.
  assert (Hpres : forall st0, pairs_unique st0 ->
            forall w' auth' city', pairs_unique (snd (post_cities w' st0 auth' city'))).
  { intros st0 H0 w' auth' city'.
    destruct (post_cities_store w' st0 auth' city') as [->|(n & i & Hn & ->)]; [exact H0|].
    unfold pairs_unique. cbn. now apply pairs_unique_snoc. }
  split; [now apply Hpres|].
  intros Hup Hauth Huser Hname st1 second.
  assert (Hst1 : pairs_unique st1) by now apply Hpres.
  assert (Hin : In (name, User._id u) (map pair_of (cities st1))).
  { subst st1. rewrite (@post_cities_logged_in w st auth u name Hup Hauth Huser Hname).
    destruct (find (is_pair name (User._id u)) (cities st)) as [c|] eqn:Hfind; cbn.
    - apply find_some in Hfind. destruct Hfind as [Hc Hp].
      apply is_pair_spec in Hp. rewrite <- Hp. now apply in_map.
    - rewrite map_app, in_app_iff. right. now left. }
  assert (Hsecond : second = (res_status_json 400 (JsonError "City already saved"), st1)).
  { subst second. rewrite (@post_cities_logged_in w st1 auth u name Hup Hauth Huser Hname).
    destruct (find (is_pair name (User._id u)) (cities st1)) eqn:Hfind; [reflexivity|].
    apply find_pair_none in Hfind. contradiction. }
  rewrite Hsecond. cbn [fst snd]. repeat split; [|exact Hst1].
  now apply count_present.
Qed.

Lemma post_cities_twice_witness :
  let auth := Fixture.as_user Fixture.bob in
  let st1 := snd (post_cities Fixture.world Fixture.store auth (Some "Paris")) in
  let second := post_cities Fixture.world st1 auth (Some "Paris") in
  fst second = res_status_json 400 (JsonError "City already saved")
  /\ count_pair "Paris" (User._id Fixture.bob) (snd second) = 1
  /\ pairs_unique (snd second).
Proof.
  assert (Hinv : pairs_unique Fixture.store).
  { unfold pairs_unique. cbn.
    repeat constructor; cbn; intuition discriminate. }
  exact (proj2 (@post_cities_twice Fixture.world Fixture.store
                  (Fixture.as_user Fixture.bob) Fixture.bob "Paris" Hinv)
           eq_refl eq_refl eq_refl ltac:(discriminate)).
Defined.

(** Run with no other request in between, the suspended handler is the
    handler run from its start to its end. *)
Lemma post_cities_alone_eq w st auth city :
  post_cities_alone w st auth city
  = (Finished (fst (post_cities w st auth city)), snd (post_cities w st auth city)).
Proof.
  unfold post_cities_alone, post_cities, post_cities_start.
  destruct (if isAuthenticated auth then user auth else None) as [u|];
    [|reflexivity].
  destruct (present city) as [name|]; [|reflexivity].
  cbn [post_cities_resume].
  destruct (City_findOne w st name (User._id u)) as [[c|]|e]; cbn;
    try reflexivity.
  now destruct (City_save w st _).
Qed.

(** C3 as stated fails in four ways: two overlapping saves of one city by
    one user both pass the check and both are stored; an empty name is
    refused twice and nothing is stored; with the database down the second
    attempt is answered 500; and a pair that is stored twice beforehand
    stays stored twice. *)
Lemma post_cities_twice_counterexample :
  let alice := Fixture.as_user Fixture.alice in
  let id := User._id Fixture.alice in
  let k := post_cities_start alice (Some "Rome") in
  let a1 := post_cities_resume Fixture.world Fixture.empty k in
  let b1 := post_cities_resume Fixture.world (snd a1) k in
  let a2 := post_cities_resume Fixture.world (snd b1) (fst a1) in
  let b2 := post_cities_resume Fixture.world (snd a2) (fst b1) in
  let down := Fixture.with_mongo Fixture.world false in
  let twice := with_cities Fixture.empty
                 [ {| City.name := "Rome"; City.userId := id |};
                   {| City.name := "Rome"; City.userId := id |} ] in
  (exists c, fst a2 = Finished (res_status_json 201 (JsonCitySaved "City saved" c))
             /\ fst b2 = Finished (res_status_json 201 (JsonCitySaved "City saved" c))
             /\ count_pair "Rome" id (snd b2) = 2
             /\ ~ pairs_unique (snd b2))
  /\ count_pair "" id
       (snd (post_cities Fixture.world
               (snd (post_cities Fixture.world Fixture.empty alice (Some "")))
               alice (Some ""))) = 0
  /\ status (fst (post_cities down
                    (snd (post_cities down Fixture.empty alice (Some "Rome")))
                    alice (Some "Rome"))) = 500%Z
  /\ count_pair "Rome" id
       (snd (post_cities Fixture.world
               (snd (post_cities Fixture.world twice alice (Some "Rome")))
               alice (Some "Rome"))) = 2.
Proof.
  cbv zeta. split; [|repeat split].
  exists {| City.name := "Rome"; City.userId := User._id Fixture.alice |}.
  repeat split.
  intros H. unfold pairs_unique in H. cbn in H.
  inversion H as [|x l Hnotin _]. apply Hnotin. now left.
Qed.

(** C3 (amended): a save that runs from start to end with no other request
    in between keeps the uniqueness of (name, userId); and when a logged-in
    user saves a non-empty name twice, one request after the other, with the
    database up and in a store where the pairs are unique, the second attempt
    is answered 400 and the store then holds exactly one City for the pair. *)
Theorem post_cities_twice_in_turn w st auth u name :
  (forall w' st' auth' city',
     post_cities_alone w' st' auth' city'
     = (Finished (fst (post_cities w' st' auth' city')),
        snd (post_cities w' st' auth' city')))
  /\ (pairs_unique st ->
      (forall w' auth' city',
         pairs_unique (snd (post_cities_alone w' st auth' city')))
      /\ (mongo_up w = true ->
          isAuthenticated auth = true -> user auth = Some u ->
          name <> "" ->
          let first := post_cities_alone w st auth (Some name) in
          let second := post_cities_alone w (snd first) auth (Some name) in
          fst second
          = Finished (res_status_json 400 (JsonError "City already saved"))
          /\ count_pair name (User._id u) (snd second) = 1
          /\ pairs_unique (snd second))).
Proof.
  split; [intros; apply post_cities_alone_eq|].
  intros Hinv.
  destruct (@post_cities_twice w st auth u name Hinv) as [Hkeep Htwice].
  split.
  - intros w' auth' city'. rewrite post_cities_alone_eq. cbn [snd]. apply Hkeep.
  - intros Hup Hauth Huser Hname. cbv zeta.
    rewrite !post_cities_alone_eq. cbn [fst snd].
    destruct (Htwice Hup Hauth Huser Hname) as (H400 & Hcount & Hunique).
    rewrite H400. repeat split; assumption.
Qed.

Lemma post_cities_twice_in_turn_witness :
  let auth := Fixture.as_user Fixture.bob in
  let first := post_cities_alone Fixture.world Fixture.store auth (Some "Paris") in
  let second := post_cities_alone Fixture.world (snd first) auth (Some "Paris") in
  fst second = Finished (res_status_json 400 (JsonError "City already saved"))
  /\ count_pair "Paris" (User._id Fixture.bob) (snd second) = 1.
Proof.
  assert (Hinv : pairs_unique Fixture.store).
  { unfold pairs_unique. cbn.
    repeat constructor; cbn; intuition discriminate. }
  destruct (proj2 (proj2 (@post_cities_twice_in_turn Fixture.world Fixture.store
                            (Fixture.as_user Fixture.bob) Fixture.bob "Paris")
                     Hinv)
              eq_refl eq_refl eq_refl ltac:(discriminate))
    as (H400 & Hcount & _).
  split; assumption.
Defined.

(** Two different names, neither of them stored for the user, are both
    accepted. *)
Theorem post_cities_distinct_names w st auth u name1 name2 :
  mongo_up w = true ->
  isAuthenticated auth = true -> user auth = Some u ->
  name1 <> "" -> name2 <> "" -> name1 <> name2 ->
  find (is_pair name1 (User._id u)) (cities st) = None ->
  find (is_pair name2 (User._id u)) (cities st) = None ->
  let c1 := {| City.name := name1; City.userId := User._id u |} in
  let c2 := {| City.name := name2; City.userId := User._id u |} in
  let first := post_cities w st auth (Some name1) in
  let second := post_cities w (snd first) auth (Some name2) in
  fst first = res_status_json 201 (JsonCitySaved "City saved" c1)
  /\ fst second = res_status_json 201 (JsonCitySaved "City saved" c2)
  /\ cities (snd second) = (cities st ++ [c1; c2])%list
  /\ c1 <> c2
  /\ unique_keys City.schema = [].
Proof.
  intros Hup Hauth Huser Hn1 Hn2 Hdiff Hf1 Hf2 c1 c2 first second.
  assert (Hfirst : first = (res_status_json 201 (JsonCitySaved "City saved" c1),
                            with_cities st (cities st ++ [c1]))).
  { subst first. rewrite (@post_cities_logged_in w st auth u name1 Hup Hauth Huser Hn1).
    now rewrite Hf1. }
  assert (Hf2' : find (is_pair name2 (User._id u)) (cities st ++ [c1]) = None).
  { apply find_pair_none. rewrite map_app, in_app_iff.
    intros [Hin|[Heq|[]]].
    - now apply find_pair_none in Hf2.
    - unfold pair_of in Heq. cbn in Heq. congruence. }
  subst second. rewrite Hfirst. cbn [fst snd].
  rewrite (@post_cities_logged_in w _ auth u name2 Hup Hauth Huser Hn2). cbn [cities with_cities].
  rewrite Hf2'. cbn.
  repeat split.
  - now rewrite <- app_assoc.
  - subst c1 c2. congruence.
Qed.

Lemma post_cities_distinct_names_witness :
  let auth := Fixture.as_user Fixture.alice in
  let first := post_cities Fixture.world Fixture.store auth (Some "London") in
  let second := post_cities Fixture.world (snd first) auth (Some "london") in
  status (fst first) = 201%Z /\ status (fst second) = 201%Z
  /\ cities (snd second)
     = (cities Fixture.store
        ++ [ {| City.name := "London"; City.userId := User._id Fixture.alice |};
             {| City.name := "london"; City.userId := User._id Fixture.alice |} ])%list.
Proof.
  destruct (@post_cities_distinct_names Fixture.world Fixture.store
              (Fixture.as_user Fixture.alice) Fixture.alice "London" "london"
              eq_refl eq_refl eq_refl
              ltac:(discriminate) ltac:(discriminate) ltac:(discriminate)
              eq_refl eq_refl)
    as (H1 & H2 & H3 & _).
  cbv zeta. rewrite H1, H2, H3. repeat split.
Defined.

Lemma find_pair_none_iff name userId cs :
  find (is_pair name userId) cs = None
  <-> forall c, In c cs -> City.userId c = userId -> City.name c <> name.
Proof.
  rewrite find_pair_none. split.
  - intros Hn c Hc Hid Hname. apply Hn.
    apply in_map_iff. exists c. split; [|exact Hc].
    unfold pair_of. now rewrite Hid, Hname.
  - intros Hall Hin. apply in_map_iff in Hin.
    destruct Hin as (c & Hpair & Hc).
    unfold pair_of in Hpair. injection Hpair as Hname Hid.
    exact (Hall c Hc Hid Hname).
Qed.

(** C10: the duplicate check is exact string equality and nothing else.  For
    a logged-in user, a non-empty name and the database up, the save is
    accepted with 201 exactly when no stored city of that user has exactly
    this name, and it is refused with 400 when one has; so two names that
    differ, be it only in letter case or surrounding white space, are both
    accepted and stored as two City records.  The City schema puts no unique
    key on its collection. *)
Theorem post_cities_exact_equality w st auth u name :
  mongo_up w = true ->
  isAuthenticated auth = true -> user auth = Some u ->
  name <> "" ->
  (status (fst (post_cities w st auth (Some name))) = 201%Z
   <-> forall c, In c (cities st) -> City.userId c = User._id u ->
                 City.name c <> name)
  /\ ((exists c, In c (cities st) /\ City.userId c = User._id u
                 /\ City.name c = name) ->
      post_cities w st auth (Some name)
      = (res_status_json 400 (JsonError "City already saved"), st))
  /\ (forall name2,
        name2 <> "" -> name2 <> name ->
        (forall c, In c (cities st) -> City.userId c = User._id u ->
                   City.name c <> name /\ City.name c <> name2) ->
        let c1 := {| City.name := name; City.userId := User._id u |} in
        let c2 := {| City.name := name2; City.userId := User._id u |} in
        let first := post_cities w st auth (Some name) in
        let second := post_cities w (snd first) auth (Some name2) in
        fst first = res_status_json 201 (JsonCitySaved "City saved" c1)
        /\ fst second = res_status_json 201 (JsonCitySaved "City saved" c2)
        /\ cities (snd second) = (cities st ++ [c1; c2])%list
        /\ c1 <> c2)
  /\ unique_keys City.schema = [].
Proof.
  intros Hup Hauth Huser Hname.
  pose proof (@post_cities_logged_in w st auth u name Hup Hauth Huser Hname) as Hpost.
  split; [|split; [|split; [|reflexivity]]].
  - rewrite <- find_pair_none_iff, Hpost.
    destruct (find (is_pair name (User._id u)) (cities st)); cbn; split;
      try discriminate; reflexivity.
  - intros (c & Hc & Hid & Hn). rewrite Hpost.
    destruct (find (is_pair name (User._id u)) (cities st)) eqn:Hfind;
      [reflexivity|].
    rewrite find_pair_none_iff in Hfind. now destruct (Hfind c Hc Hid).
  - intros name2 Hname2 Hdiff Hnone.
    assert (Hf1 : find (is_pair name (User._id u)) (cities st) = None).
    { apply find_pair_none_iff. intros c Hc Hid. now apply Hnone. }
    assert (Hf2 : find (is_pair name2 (User._id u)) (cities st) = None).
    { apply find_pair_none_iff. intros c Hc Hid. now apply Hnone. }
    destruct (@post_cities_distinct_names w st auth u name name2
                Hup Hauth Huser Hname Hname2 (not_eq_sym Hdiff) Hf1 Hf2)
      as (H1 & H2 & H3 & H4 & _).
    cbv zeta. repeat split; assumption.
Qed.

Lemma post_cities_exact_equality_witness :
  let auth := Fixture.as_user Fixture.alice in
  post_cities Fixture.world Fixture.store auth (Some "Paris")
  = (res_status_json 400 (JsonError "City already saved"), Fixture.store)
  /\ status (fst (post_cities Fixture.world Fixture.store auth (Some "paris")))
     = 201%Z
  /\ status (fst (post_cities Fixture.world Fixture.store auth (Some "Paris ")))
     = 201%Z.
Proof.
  cbv zeta. split; [|split].
  - apply (proj1 (proj2 (@post_cities_exact_equality Fixture.world Fixture.store
                           (Fixture.as_user Fixture.alice) Fixture.alice "Paris"
                           eq_refl eq_refl eq_refl ltac:(discriminate)))).
    eexists. split; [left; reflexivity|]. split; reflexivity.
  - apply (proj1 (@post_cities_exact_equality Fixture.world Fixture.store
                    (Fixture.as_user Fixture.alice) Fixture.alice "paris"
                    eq_refl eq_refl eq_refl ltac:(discriminate))).
    intros c [<-|[<-|[]]] Hid; cbn in *; discriminate.
  - apply (proj1 (@post_cities_exact_equality Fixture.world Fixture.store
                    (Fixture.as_user Fixture.alice) Fixture.alice "Paris "
                    eq_refl eq_refl eq_refl ltac:(discriminate))).
    intros c [<-|[<-|[]]] Hid; cbn in *; discriminate.
Defined.

(** C8: with the database up, listing the cities of a logged-in user A
    answers 200 with exactly the stored cities whose [userId] is A's id; no
    city of a user B with another id is among them. *)
Theorem get_cities_only_own w st auth a b :
  mongo_up w = true ->
  isAuthenticated auth = true -> user auth = Some a ->
  User._id a <> User._id b ->
  exists found,
    get_cities w st auth = (res_json (JsonCities found), st)
    /\ (forall c, In c found <-> In c (cities st) /\ City.userId c = User._id a)
    /\ (forall c, In c found -> City.userId c <> User._id b).
Proof.
  intros Hup Hauth Huser Hab.
  exists (filter (fun c => City.userId c =? User._id a) (cities st)).
  split; [|split].
  - unfold get_cities. rewrite Hauth, Huser, (@City_find_up w Hup). reflexivity.
  - intros c. now rewrite filter_In, String.eqb_eq.
  - intros c Hc. apply filter_In in Hc. destruct Hc as [_ Hc].
    apply String.eqb_eq in Hc. congruence.
Qed.

Lemma get_cities_only_own_witness :
  exists found,
    get_cities Fixture.world Fixture.store (Fixture.as_user Fixture.alice)
    = (res_json (JsonCities found), Fixture.store)
    /\ (forall c, In c found -> City.userId c <> User._id Fixture.bob).
Proof.
  destruct (@get_cities_only_own Fixture.world Fixture.store
              (Fixture.as_user Fixture.alice) Fixture.alice Fixture.bob
              eq_refl eq_refl eq_refl ltac:(discriminate))
    as (found & Hget & _ & Hnot).
  exists found. split; assumption.
Defined.

(** ** Weather *)

(** The request for the weather of a city goes to the first of the two
    handlers registered for the path. *)
Lemma app_weather w st city :
  app w st (GET_api_weather city)
  = Replied (fst (get_api_weather_1 w st city)) (snd (get_api_weather_1 w st city)).
Proof. reflexivity. Qed.

(** The second handler, had it been reached, would let a failure escape for
    every request that names a city. *)
Lemma get_api_weather_2_escapes w st city :
  falsy city = false ->
  get_api_weather_2 w st city = Throw (ReferenceError "API_KEY").
Proof. unfold get_api_weather_2. now intros ->. Qed.

(** C6 as stated fails for a malformed body: a 2xx upstream response whose
    body is not JSON is answered 200 with that body as a string, not 500. *)
Lemma get_weather_malformed_body_counterexample :
  let w := Fixture.with_http Fixture.world
             (fun _ => HttpResponse 200 (NotJson "<html>Bad gateway</html>")) in
  falsy (Some "London") = false
  /\ falsy (OPENWEATHER_API_KEY w) = false
  /\ app w Fixture.store (GET_api_weather (Some "London"))
     = Replied (res_json (JsonData (VStr "<html>Bad gateway</html>"))) Fixture.store
  /\ forall b, app w Fixture.store (GET_api_weather (Some "London"))
               <> Replied (res_status_json 500 b) Fixture.store.
Proof.
  cbv zeta. split; [reflexivity|]. split; [reflexivity|]. split; [reflexivity|].
  intros b. rewrite app_weather. cbn. discriminate.
Qed.

(** C6 (amended): a weather request without a city is answered 400; with a
    city but no API key, 500; otherwise the metric-units URL is requested
    and the JSON body of a 2xx response is returned unmodified with 200,
    while an unreachable upstream or a status outside 2xx gives 500.  A 2xx
    response whose body is not JSON is relayed as a string with 200. *)
Theorem get_weather_cases w st :
  (forall city, falsy city = true ->
     app w st (GET_api_weather city)
     = Replied (res_status_json 400 (JsonError "City is required")) st)
  /\ (forall city, city <> "" -> falsy (OPENWEATHER_API_KEY w) = true ->
        app w st (GET_api_weather (Some city))
        = Replied (res_status_json 500 (JsonError "API key is missing")) st)
  /\ (forall city key code v,
        city <> "" -> key <> "" -> OPENWEATHER_API_KEY w = Some key ->
        http w (metric_url city key) = HttpResponse code (JsonText v) ->
        is_2xx code = true ->
        app w st (GET_api_weather (Some city)) = Replied (res_json (JsonData v)) st)
  /\ (forall city key,
        city <> "" -> key <> "" -> OPENWEATHER_API_KEY w = Some key ->
        http w (metric_url city key) = Unreachable
        \/ (exists code payload,
              http w (metric_url city key) = HttpResponse code payload
              /\ is_2xx code = false) ->
        app w st (GET_api_weather (Some city))
        = Replied (res_status_json 500 (JsonError "Failed to fetch weather data")) st)
  /\ (forall city key code raw,
        city <> "" -> key <> "" -> OPENWEATHER_API_KEY w = Some key ->
        http w (metric_url city key) = HttpResponse code (NotJson raw) ->
        is_2xx code = true ->
        app w st (GET_api_weather (Some city))
        = Replied (res_json (JsonData (VStr raw))) st).
Proof.
  split; [|split; [|split; [|split]]].
  - intros city Hc. rewrite app_weather. unfold get_api_weather_1.
    now rewrite Hc.
  - intros city Hc Hk. rewrite app_weather. unfold get_api_weather_1.
    now rewrite (falsy_some Hc), Hk.
  - intros city key code v Hc Hk Hkey Hhttp H2xx.
    rewrite app_weather. unfold get_api_weather_1, axios_get, weather_url.
    rewrite (falsy_some Hc), Hkey, (falsy_some Hk). cbn [interpolate].
    unfold metric_url in Hhttp. rewrite Hhttp.
    unfold is_2xx in H2xx. now rewrite H2xx.
  - intros city key Hc Hk Hkey Hfail.
    rewrite app_weather. unfold get_api_weather_1, axios_get, weather_url.
    rewrite (falsy_some Hc), Hkey, (falsy_some Hk). cbn [interpolate].
    unfold metric_url in Hfail.
    destruct Hfail as [->|(code & payload & -> & Hcode)]; [reflexivity|].
    unfold is_2xx in Hcode. now rewrite Hcode.
  - intros city key code raw Hc Hk Hkey Hhttp H2xx.
    rewrite app_weather. unfold get_api_weather_1, axios_get, weather_url.
    rewrite (falsy_some Hc), Hkey, (falsy_some Hk). cbn [interpolate].
    unfold metric_url in Hhttp. rewrite Hhttp.
    unfold is_2xx in H2xx. now rewrite H2xx.
Qed.

Lemma get_weather_cases_witness :
  app Fixture.world Fixture.store (GET_api_weather None)
  = Replied (res_status_json 400 (JsonError "City is required")) Fixture.store
  /\ app Fixture.world Fixture.store (GET_api_weather (Some "London"))
     = Replied (res_json (JsonData (VObj [("main", VObj [("temp", VNum 21)])])))
         Fixture.store
  /\ app (Fixture.with_http Fixture.world (fun _ => HttpResponse 404 (JsonText VNull)))
       Fixture.store (GET_api_weather (Some "Atlantis"))
     = Replied (res_status_json 500 (JsonError "Failed to fetch weather data"))
         Fixture.store.
Proof.
  split; [|split].
  - exact (proj1 (get_weather_cases Fixture.world Fixture.store) None eq_refl).
  - refine (proj1 (proj2 (proj2 (get_weather_cases Fixture.world Fixture.store)))
              "London" "owm" 200%Z _ _ _ eq_refl eq_refl eq_refl);
      discriminate.
  - refine (proj1 (proj2 (proj2 (proj2
              (get_weather_cases
                 (Fixture.with_http Fixture.world
                    (fun _ => HttpResponse 404 (JsonText VNull)))
                 Fixture.store))))
              "Atlantis" "owm" _ _ eq_refl _); try discriminate.
    right. exists 404%Z, (JsonText VNull). split; reflexivity.
Defined.

(** ** Failures and the life of the process *)

Lemma Chat_save_down w st c :
  mongo_up w = false -> exists e, Chat_save w st c = Throw e.
Proof.
  intros Hdown. unfold Chat_save, connected. rewrite Hdown.
  destruct (validate Chat.schema (Chat.cells c)); cbn; eauto.
Qed.




(** The request for the favicon is left without an answer; nothing fails
    and the process keeps running. *)
Lemma favicon_no_answer w st :
  app w st GET_favicon = NoAnswer
  /\ serve w (Running st) GET_favicon = (Running st, None).
Proof. split; reflexivity. Qed.




(** ** Further properties of the handlers *)

Lemma present_inv f s : present f = Some s -> f = Some s /\ s <> "".
Proof.
  unfold present. destruct (falsy f) eqn:Hf; [discriminate|].
  intros ->. split; [reflexivity|].
  unfold falsy in Hf. cbn in Hf. apply negb_false_iff in Hf.
  apply negb_true_iff in Hf. now apply String.eqb_neq.
Qed.

Lemma logged_in_inv auth u :
  (if isAuthenticated auth then user auth else None) = Some u ->
  isAuthenticated auth = true /\ user auth = Some u.
Proof. destruct (isAuthenticated auth); [auto|discriminate]. Qed.

(** What one call of the save-city handler can do: answer 201 and append the
    submitted name under the id of the logged-in user, or answer something
    else and leave the store alone. *)
Lemma post_cities_effect w st auth city :
  (exists u name,
     isAuthenticated auth = true /\ user auth = Some u
     /\ city = Some name /\ name <> "" /\ mongo_up w = true
     /\ find (is_pair name (User._id u)) (cities st) = None
     /\ post_cities w st auth city
        = (res_status_json 201
             (JsonCitySaved "City saved"
                {| City.name := name; City.userId := User._id u |}),
           with_cities st
             (cities st ++ [{| City.name := name; City.userId := User._id u |}])))
  \/ (snd (post_cities w st auth city) = st
      /\ status (fst (post_cities w st auth city)) <> 201%Z).
Proof.
  unfold post_cities.
  destruct (if isAuthenticated auth then user auth else None) as [u|] eqn:Hlog;
    [|right; split; [reflexivity|discriminate]].
  destruct (present city) as [name|] eqn:Hcity;
    [|right; split; [reflexivity|discriminate]].
  apply logged_in_inv in Hlog. destruct Hlog as [Hauth Huser].
  apply present_inv in Hcity. destruct Hcity as [-> Hname].
  destruct (mongo_up w) eqn:Hup.
  - rewrite (@City_findOne_up w Hup). cbn.
    destruct (find (is_pair name (User._id u)) (cities st)) eqn:Hfind;
      [right; split; [reflexivity|discriminate]|].
    rewrite (@City_save_up w Hup st name (User._id u) Hname). cbn.
    left. exists u, name. repeat split; assumption.
  - unfold City_findOne, connected. rewrite Hup. cbn.
    right. split; [reflexivity|discriminate].
Qed.

Lemma get_api_weather_1_store w st city :
  snd (get_api_weather_1 w st city) = st.
Proof.
  unfold get_api_weather_1.
  destruct (falsy city); [reflexivity|].
  destruct (falsy (OPENWEATHER_API_KEY w)); [reflexivity|].
  now destruct (axios_get w _).
Qed.

Lemma post_register_store st username password :
  snd (post_register st username password) = st.
Proof.
  unfold post_register. now destruct (falsy username || falsy password).
Qed.

Lemma post_login_store w st username password :
  snd (post_login w st username password) = st.
Proof.
  unfold post_login.
  destruct (User_findOne w st username) as [[u|]|e]; reflexivity.
Qed.

Lemma get_cities_store w st auth : snd (get_cities w st auth) = st.
Proof.
  unfold get_cities.
  destruct (if isAuthenticated auth then user auth else None); [|reflexivity].
  now destruct (City_find w st _).
Qed.

(** What one call of the chat handler can do to the store. *)
Lemma post_chat_effect w st message :
  post_chat w st message = (fst (post_chat w st message), st)
  \/ exists userMessage botMessage,
       message = Some userMessage /\ userMessage <> "" /\ botMessage <> ""
       /\ post_chat w st message
          = (res_json (JsonChat botMessage),
             with_chats st
               (chats st ++ [{| Chat.userMessage := userMessage;
                                Chat.botMessage := botMessage;
                                Chat.createdAt := Date_now w |}])).
Proof.
  unfold post_chat.
  destruct (present message) as [userMessage|] eqn:Hmsg; [|now left].
  apply present_inv in Hmsg. destruct Hmsg as [-> Hmsg].
  destruct (completions_create w userMessage) as [v|e]; [|now left]. cbn.
  destruct (reply_of v) as [botMessage|e]; [|now left]. cbn.
  destruct (mongo_up w) eqn:Hup.
  - destruct (String.eqb_spec botMessage "") as [->|Hbot].
    + rewrite Chat_save_blank. now left.
    + rewrite (@Chat_save_up w Hup st _ _ (Date_now w) Hmsg Hbot). cbn.
      right. exists userMessage, botMessage. repeat split; assumption.
  - destruct (@Chat_save_down w st
                {| Chat.userMessage := userMessage; Chat.botMessage := botMessage;
                   Chat.createdAt := Date_now w |} Hup) as [e ->].
    now left.
Qed.

(** X1: the answer of the login handler does not depend on the submitted
    password, present or not: the comparison is never looked at. *)
Theorem post_login_ignores_password w st username password1 password2 :
  post_login w st username password1 = post_login w st username password2.
Proof.
  unfold post_login.
  destruct (User_findOne w st username) as [[u|]|e]; reflexivity.
Qed.

(** X2: registration answers 400 exactly when the username or the password
    is missing or empty and 201 otherwise; it never answers 500 and never
    writes to the store, so no request of it creates a user. *)
Theorem post_register_status st username password :
  (status (fst (post_register st username password)) = 400%Z
   <-> falsy username = true \/ falsy password = true)
  /\ (status (fst (post_register st username password)) = 201%Z
      <-> falsy username = false /\ falsy password = false)
  /\ status (fst (post_register st username password)) <> 500%Z
  /\ snd (post_register st username password) = st.
Proof.
  unfold post_register.
  destruct (falsy username), (falsy password); cbn;
    repeat split; try discriminate; intuition discriminate.
Qed.

(** X3: the save-city handler checks the login and then the city name before
    it touches the database: a request that is not logged in gets 401 and a
    logged-in request without a city name gets 400, whether the database is
    up or not, with the store unchanged. *)
Theorem post_cities_checks_before_database w st auth city :
  ((isAuthenticated auth = false \/ user auth = None) ->
   post_cities w st auth city
   = (res_status_json 401 (JsonError "You must be logged in"), st))
  /\ (forall u,
        isAuthenticated auth = true -> user auth = Some u ->
        falsy city = true ->
        post_cities w st auth city
        = (res_status_json 400 (JsonError "City name required"), st)).
Proof.
  unfold post_cities. split.
  - intros [H|H]; rewrite H; [reflexivity|].
    now destruct (isAuthenticated auth).
  - intros u Hauth Huser Hcity.
    now rewrite Hauth, Huser, (present_falsy _ Hcity).
Qed.

Lemma post_cities_checks_before_database_witness :
  post_cities (Fixture.with_mongo Fixture.world false) Fixture.store
    {| isAuthenticated := false; user := None |} (Some "Paris")
  = (res_status_json 401 (JsonError "You must be logged in"), Fixture.store)
  /\ post_cities (Fixture.with_mongo Fixture.world false) Fixture.store
       (Fixture.as_user Fixture.alice) (Some "")
     = (res_status_json 400 (JsonError "City name required"), Fixture.store).
Proof.
  split.
  - apply (proj1 (post_cities_checks_before_database
                    (Fixture.with_mongo Fixture.world false) Fixture.store
                    {| isAuthenticated := false; user := None |} (Some "Paris"))).
    now left.
  - exact (proj2 (post_cities_checks_before_database
                    (Fixture.with_mongo Fixture.world false) Fixture.store
                    (Fixture.as_user Fixture.alice) (Some ""))
             Fixture.alice eq_refl eq_refl eq_refl).
Defined.

(** X4: the save-city handler changes the store only when it answers 201, and
    then it appends exactly one city, with the submitted name and the id of
    the logged-in user; users, chats and sessions are never touched.  No
    request stores a city under the id of somebody else. *)
Theorem post_cities_writes_only_own_city w st auth city :
  users (snd (post_cities w st auth city)) = users st
  /\ chats (snd (post_cities w st auth city)) = chats st
  /\ sessions (snd (post_cities w st auth city)) = sessions st
  /\ (status (fst (post_cities w st auth city)) <> 201%Z ->
      snd (post_cities w st auth city) = st)
  /\ (status (fst (post_cities w st auth city)) = 201%Z ->
      exists u name,
        isAuthenticated auth = true /\ user auth = Some u /\ city = Some name
        /\ cities (snd (post_cities w st auth city))
           = (cities st ++ [{| City.name := name; City.userId := User._id u |}])%list).
Proof.
  destruct (post_cities_effect w st auth city)
    as [(u & name & Hauth & Huser & Hcity & _ & _ & _ & ->)|[Hst Hstatus]].
  - cbn. repeat split; try reflexivity.
    + intros H. now destruct H.
    + intros _. exists u, name. repeat split; assumption.
  - rewrite Hst. repeat split; try reflexivity. intros H. contradiction.
Qed.

Lemma post_cities_writes_only_own_city_witness :
  exists u name,
    user (Fixture.as_user Fixture.bob) = Some u /\ Some "Lima" = Some name
    /\ cities (snd (post_cities Fixture.world Fixture.store
                      (Fixture.as_user Fixture.bob) (Some "Lima")))
       = (cities Fixture.store
          ++ [{| City.name := name; City.userId := User._id u |}])%list.
Proof.
  destruct (proj2 (proj2 (proj2 (proj2
             (post_cities_writes_only_own_city Fixture.world Fixture.store
                (Fixture.as_user Fixture.bob) (Some "Lima"))))) eq_refl)
    as (u & name & _ & Hu & Hn & Hc).
  exists u, name. repeat split; assumption.
Defined.

(** X5: a city that was saved with 201 is in the next listing of the user
    who saved it, and the listing of a user with another id is what it was
    before. *)
Theorem post_cities_then_get_cities w st auth other city :
  status (fst (post_cities w st auth city)) = 201%Z ->
  isAuthenticated other = true ->
  (forall u o, user auth = Some u -> user other = Some o -> User._id u <> User._id o) ->
  let st1 := snd (post_cities w st auth city) in
  (exists u name found,
     user auth = Some u /\ city = Some name
     /\ get_cities w st1 auth = (res_json (JsonCities found), st1)
     /\ In {| City.name := name; City.userId := User._id u |} found)
  /\ get_cities w st1 other = (fst (get_cities w st other), st1).
Proof.
  intros H201 Hother Hdiff st1. subst st1.
  destruct (post_cities_effect w st auth city)
    as [(u & name & Hauth & Huser & Hcity & Hname & Hup & Hfind & Hpost)|[_ Hno]];
    [|contradiction].
  rewrite Hpost. cbn [snd]. split.
  - exists u, name.
    eexists. split; [exact Huser|]. split; [exact Hcity|].
    unfold get_cities. rewrite Hauth, Huser, (@City_find_up w Hup). cbn.
    split; [reflexivity|].
    apply filter_In. split.
    + apply in_or_app. right. now left.
    + cbn. apply String.eqb_refl.
  - unfold get_cities. rewrite Hother.
    destruct (user other) as [o|] eqn:Ho; [|reflexivity].
    rewrite !(@City_find_up w Hup). cbn.
    rewrite filter_app. cbn.
    assert (Hne : (User._id u =? User._id o) = false).
    { apply String.eqb_neq. now apply Hdiff. }
    rewrite Hne. now rewrite app_nil_r.
Qed.

Lemma post_cities_then_get_cities_witness :
  let st1 := snd (post_cities Fixture.world Fixture.store
                    (Fixture.as_user Fixture.bob) (Some "Lima")) in
  get_cities Fixture.world st1 (Fixture.as_user Fixture.alice)
  = (fst (get_cities Fixture.world Fixture.store (Fixture.as_user Fixture.alice)), st1).
Proof.
  refine (proj2 (@post_cities_then_get_cities Fixture.world Fixture.store
                   (Fixture.as_user Fixture.bob) (Fixture.as_user Fixture.alice)
                   (Some "Lima") eq_refl eq_refl _)).
  intros u o [= <-] [= <-]. discriminate.
Defined.

(** X6: the listing never changes the store, and it hands out cities only to
    a logged-in request, all of them owned by the logged-in user; this holds
    in every state of the database connection. *)
Theorem get_cities_needs_login w st auth :
  snd (get_cities w st auth) = st
  /\ forall found,
       body (fst (get_cities w st auth)) = JsonCities found ->
       exists u,
         isAuthenticated auth = true /\ user auth = Some u
         /\ found = cities_of (User._id u) st.
Proof.
  split; [apply get_cities_store|].
  unfold get_cities. intros found.
  destruct (if isAuthenticated auth then user auth else None) as [u|] eqn:Hlog;
    [|discriminate].
  apply logged_in_inv in Hlog. destruct Hlog as [Hauth Huser].
  unfold City_find, connected.
  destruct (mongo_up w); cbn; [|discriminate].
  intros [= <-]. now exists u.
Qed.

Lemma get_cities_needs_login_witness :
  exists u,
    user (Fixture.as_user Fixture.alice) = Some u
    /\ [{| City.name := "Paris"; City.userId := User._id Fixture.alice |}]
       = cities_of (User._id u) Fixture.store.
Proof.
  destruct (proj2 (get_cities_needs_login Fixture.world Fixture.store
                     (Fixture.as_user Fixture.alice)) _ eq_refl)
    as (u & _ & Hu & Hfound).
  exists u. split; assumption.
Defined.

(** X7: the chat handler answers every request with status 200, whatever the
    message, the completion service and the database do. *)
Theorem post_chat_always_200 w st message :
  status (fst (post_chat w st message)) = 200%Z.
Proof.
  destruct (post_chat_effect w st message) as [H|(u & b & _ & _ & _ & ->)];
    [|reflexivity].
  unfold post_chat in *.
  destruct (present message) as [userMessage|]; [|reflexivity].
  destruct (completions_create w userMessage) as [v|e]; [|reflexivity]. cbn.
  destruct (reply_of v) as [botMessage|e]; [|reflexivity]. cbn.
  now destruct (Chat_save w st _).
Qed.

(** X8: the chat handler never touches users, cities or sessions, and it
    appends at most one chat; when it appends one, the record holds the
    submitted message and the very text sent back to the client, both
    non-empty, with the time of the insert. *)
Theorem post_chat_stores_what_it_returns w st message :
  let r := post_chat w st message in
  users (snd r) = users st /\ cities (snd r) = cities st
  /\ sessions (snd r) = sessions st
  /\ (chats (snd r) = chats st
      \/ exists userMessage botMessage,
           message = Some userMessage /\ body (fst r) = JsonChat botMessage
           /\ userMessage <> "" /\ botMessage <> ""
           /\ chats (snd r)
              = (chats st ++ [{| Chat.userMessage := userMessage;
                                 Chat.botMessage := botMessage;
                                 Chat.createdAt := Date_now w |}])%list).
Proof.
  cbv zeta.
  destruct (post_chat_effect w st message)
    as [->|(u & b & Hm & Hu & Hb & ->)]; cbn.
  - repeat split. now left.
  - repeat split. right. exists u, b. repeat split; assumption.
Qed.

(** X9: the second handler registered for [/api/weather] is never run:
    whatever route stands in its place, last in the table, the application
    answers every request the same way. *)
Theorem app_last_route_dead w (other : Route) st req :
  dispatch (removelast (routes w) ++ [other]) st req = app w st req.
Proof.
  unfold app. destruct req; reflexivity.
Qed.


(** ** The weather helpers, the key routes and the User model *)

(** X12: the weather helper never throws and never hands out a body it did
    not check: its result is [null] or an object whose [main] is truthy. *)
Theorem fetchWeatherData_null_or_main w city :
  fetchWeatherData w city = VNull
  \/ exists props,
       fetchWeatherData w city = VObj props
       /\ truthy (lookup "main" props) = true.
Proof.
  unfold fetchWeatherData, fetch.
  destruct (falsy city); [now left|].
  destruct (http w _) as [|code payload]; [now left|]. cbn.
  unfold response_ok. cbn.
  destruct (is_2xx code); [|now left]. cbn.
  destruct payload as [v|raw]; [|now left]. cbn.
  destruct v as [| |b|z|s|items|props]; cbn; try (now left).
  - destruct b; now left.
  - destruct (z =? 0)%Z; now left.
  - destruct (s =? ""); now left.
  - destruct (truthy (lookup "main" props)) eqn:Hmain; cbn; [|now left].
    right. now exists props.
Qed.

(** X13: for a city name the weather helper requests the metric-units URL
    with whatever the environment holds as key, [undefined] included, and
    returns the JSON object of a 2xx response when its [main] is truthy; an
    absent or empty city, an unreachable upstream, a status outside 2xx and a
    body that is not JSON all give [null]. *)
Theorem fetchWeatherData_cases w city :
  (falsy city = true -> fetchWeatherData w city = VNull)
  /\ (forall c code props,
        city = Some c -> c <> "" ->
        http w (metric_url c (interpolate (OPENWEATHER_API_KEY w)))
        = HttpResponse code (JsonText (VObj props)) ->
        is_2xx code = true ->
        truthy (lookup "main" props) = true ->
        fetchWeatherData w city = VObj props)
  /\ (forall c,
        city = Some c -> c <> "" ->
        http w (metric_url c (interpolate (OPENWEATHER_API_KEY w))) = Unreachable
        \/ (exists code payload,
              http w (metric_url c (interpolate (OPENWEATHER_API_KEY w)))
              = HttpResponse code payload
              /\ (is_2xx code = false \/ exists raw, payload = NotJson raw)) ->
        fetchWeatherData w city = VNull).
Proof.
  unfold fetchWeatherData, fetch. split; [|split].
  - now intros ->.
  - intros c code props -> Hc Hhttp H2xx Hmain.
    rewrite (falsy_some Hc).
    change (weather_url (Some c) (OPENWEATHER_API_KEY w))
      with (metric_url c (interpolate (OPENWEATHER_API_KEY w))).
    rewrite Hhttp. cbn. unfold response_ok. cbn. rewrite H2xx. cbn.
    now rewrite Hmain.
  - intros c -> Hc Hfail.
    rewrite (falsy_some Hc).
    change (weather_url (Some c) (OPENWEATHER_API_KEY w))
      with (metric_url c (interpolate (OPENWEATHER_API_KEY w))).
    destruct Hfail as [->|(code & payload & -> & Hbad)]; [reflexivity|].
    cbn. unfold response_ok. cbn.
    destruct (is_2xx code); [|reflexivity].
    destruct Hbad as [Hbad|[raw ->]]; [discriminate|reflexivity].
Qed.

Lemma fetchWeatherData_cases_witness :
  fetchWeatherData Fixture.world (Some "") = VNull
  /\ fetchWeatherData Fixture.world (Some "Oslo")
     = VObj [("main", VObj [("temp", VNum 21)])]
  /\ fetchWeatherData
       (Fixture.with_http Fixture.world (fun _ => HttpResponse 200 (NotJson "oops")))
       (Some "Oslo")
     = VNull.
Proof.
  split; [|split].
  - exact (proj1 (fetchWeatherData_cases Fixture.world (Some "")) eq_refl).
  - refine (proj1 (proj2 (fetchWeatherData_cases Fixture.world (Some "Oslo")))
              "Oslo" 200%Z _ eq_refl _ eq_refl eq_refl eq_refl).
    discriminate.
  - refine (proj2 (proj2 (fetchWeatherData_cases
                            (Fixture.with_http Fixture.world
                               (fun _ => HttpResponse 200 (NotJson "oops")))
                            (Some "Oslo")))
              "Oslo" eq_refl _ _); [discriminate|].
    right. exists 200%Z, (NotJson "oops"). split; [reflexivity|].
    right. now exists "oops".
Defined.

(** X14: the alerts helper returns the JSON body of a 2xx response as it is,
    and whatever it returns that is not [null] is such a body; it checks
    neither the city nor the content. *)
Theorem fetchWeatherAlerts_result w city :
  (forall code v,
     http w (alerts_url city) = HttpResponse code (JsonText v) ->
     is_2xx code = true ->
     fetchWeatherAlerts w city = v)
  /\ (fetchWeatherAlerts w city <> VNull ->
      exists code,
        http w (alerts_url city)
        = HttpResponse code (JsonText (fetchWeatherAlerts w city))
        /\ is_2xx code = true).
Proof.
  unfold fetchWeatherAlerts, fetch. split.
  - intros code v -> H2xx. cbn. unfold response_ok. cbn. now rewrite H2xx.
  - destruct (http w (alerts_url city)) as [|code payload]; cbn;
      [intros H; now destruct H|].
    unfold response_ok. cbn.
    destruct (is_2xx code) eqn:H2xx; cbn; [|intros H; now destruct H].
    destruct payload as [v|raw]; cbn; [|intros H; now destruct H].
    intros _. now exists code.
Qed.

Lemma fetchWeatherAlerts_result_witness :
  fetchWeatherAlerts Fixture.world None
  = VObj [("main", VObj [("temp", VNum 21)])].
Proof.
  exact (proj1 (fetchWeatherAlerts_result Fixture.world None)
           200%Z _ eq_refl eq_refl).
Defined.

(** X15: the key route answers 200 with a string in every case: the empty
    string exactly when the weather route would refuse for want of a key, and
    otherwise the very key that the weather route puts in its upstream URL. *)
Theorem getApiKey_matches_weather_key w :
  exists s,
    get_api_getApiKey w = res_json (JsonData (VObj [("apiKey", VStr s)]))
    /\ (s = "" <-> falsy (OPENWEATHER_API_KEY w) = true)
    /\ (s = "" ->
        forall st city, city <> "" ->
          get_api_weather_1 w st (Some city)
          = (res_status_json 500 (JsonError "API key is missing"), st))
    /\ (s <> "" ->
        forall city,
          weather_url (Some city) (OPENWEATHER_API_KEY w) = metric_url city s).
Proof.
  unfold get_api_getApiKey.
  destruct (present (OPENWEATHER_API_KEY w)) as [key|] eqn:Hkey.
  - apply present_inv in Hkey. destruct Hkey as [Hkey Hne].
    exists key. rewrite Hkey. split; [reflexivity|]. split; [|split].
    + rewrite (falsy_some Hne). split; [contradiction|discriminate].
    + contradiction.
    + reflexivity.
  - assert (Hf : falsy (OPENWEATHER_API_KEY w) = true).
    { unfold present in Hkey. destruct (falsy (OPENWEATHER_API_KEY w)) eqn:Hf;
        [reflexivity|].
      destruct (OPENWEATHER_API_KEY w); [discriminate|]. discriminate Hf. }
    exists "". split; [reflexivity|]. split; [|split].
    + now split.
    + intros _ st city Hcity. unfold get_api_weather_1.
      now rewrite (falsy_some Hcity), Hf.
    + intros H. now destruct H.
Qed.

Lemma sk_prefix_inv key :
  startsWith key "sk-" = true -> exists rest, key = "sk-" ++ rest.
Proof.
  unfold startsWith.
  destruct key as [|a [|b [|c rest]]]; cbn [String.prefix]; try discriminate.
  - now destruct (ascii_dec "s" a).
  - destruct (ascii_dec "s" a); [|discriminate]. now destruct (ascii_dec "k" b).
  - destruct (ascii_dec "s" a) as [<-|]; [|discriminate].
    destruct (ascii_dec "k" b) as [<-|]; [|discriminate].
    destruct (ascii_dec "-" c) as [<-|]; [|discriminate].
    intros _. now exists rest.
Qed.

(** Dropping white space from the end stops at the latest at [sk-]. *)
Lemma drop_ws_keeps_sk n :
  forall m, List.length m <= n ->
    exists m', drop_ws false (m ++ ["-"; "k"; "s"]%char)
               = (m' ++ ["-"; "k"; "s"]%char)%list.
Proof.
  induction n as [|n IH]; intros m Hlen.
  - destruct m; [|cbn in Hlen; lia]. now exists [].
  - destruct m as [|a [|b [|c m3]]].
    + now exists [].
    + cbn [Datatypes.app drop_ws]. destruct (ws1 a).
      * apply (IH []). cbn. lia.
      * cbn. now exists [a].
    + cbn [Datatypes.app drop_ws]. destruct (ws1 a).
      * apply (IH [b]). cbn in *. lia.
      * destruct (ws2 b a).
        -- apply (IH []). cbn. lia.
        -- cbn. now exists [a; b].
    + cbn [Datatypes.app drop_ws]. destruct (ws1 a).
      * apply (IH (b :: c :: m3)). cbn in *. lia.
      * destruct (ws2 b a).
        -- apply (IH (c :: m3)). cbn in *. lia.
        -- destruct (ws3 c b a).
           ++ apply (IH m3). cbn in *. lia.
           ++ now exists (a :: b :: c :: m3).
Qed.

Lemma drop_ws_sk_front l :
  drop_ws true ("s" :: "k" :: "-" :: l)%char = ("s" :: "k" :: "-" :: l)%char.
Proof. reflexivity. Qed.

Lemma rev_sk l :
  List.rev ("s" :: "k" :: "-" :: l)%char
  = (List.rev l ++ ["-"; "k"; "s"]%char)%list.
Proof. cbn [List.rev]. now rewrite <- !app_assoc. Qed.

Lemma trim_keeps_sk rest : exists rest', trim ("sk-" ++ rest) = "sk-" ++ rest'.
Proof.
  unfold trim.
  change (list_ascii_of_string ("sk-" ++ rest))
    with ("s" :: "k" :: "-" :: list_ascii_of_string rest)%char.
  rewrite drop_ws_sk_front, rev_sk.
  destruct (@drop_ws_keeps_sk _ (List.rev (list_ascii_of_string rest)) (le_n _))
    as [m' ->].
  rewrite rev_app_distr.
  exists (string_of_list_ascii (List.rev m')). reflexivity.
Qed.

(** X16: when the start-up check lets the server start, the key handed to
    the completion client, which is the trimmed environment variable, is not
    empty and still starts with [sk-]. *)
Theorem started_client_key w :
  startup_check w = Started ->
  exists key,
    OPENAI_API_KEY w = Some key
    /\ openai_apiKey w = Ok (trim key)
    /\ startsWith (trim key) "sk-" = true
    /\ trim key <> "".
Proof.
  unfold startup_check, openai_apiKey.
  destruct (present (OPENAI_API_KEY w)) as [key|] eqn:Hkey; [|discriminate].
  apply present_inv in Hkey. destruct Hkey as [-> _].
  destruct (startsWith key "sk-") eqn:Hsk; [|discriminate]. intros _.
  exists key. split; [reflexivity|]. split; [reflexivity|].
  destruct (sk_prefix_inv _ Hsk) as [rest ->].
  destruct (trim_keeps_sk rest) as [rest' ->].
  split; [|discriminate].
  unfold startsWith. apply String.prefix_correct. now destruct rest'.
Qed.

Lemma started_client_key_witness :
  exists key, openai_apiKey Fixture.world = Ok (trim key)
              /\ startsWith (trim key) "sk-" = true.
Proof.
  destruct (@started_client_key Fixture.world eq_refl) as (key & _ & Hk & Hsk & _).
  now exists key.
Defined.

(** X17: for a bcrypt that recognises the hashes it makes with the salts it
    generates, the password that the
    pre-save hook stores is accepted by [comparePassword] for the plaintext it
    was made from; the hook keeps id and username, and leaves a document whose
    password was not modified as it is, so a hash is not hashed again.  A
    comparison without a candidate is a rejected promise. *)
Theorem pre_save_then_compare w u :
  (forall plain,
     bcrypt_compare w plain (bcrypt_hash w plain (bcrypt_genSalt w 10)) = true) ->
  await (comparePassword w (User_pre_save w true u) (Some (User.password u)))
  = Ok true
  /\ User._id (User_pre_save w true u) = User._id u
  /\ User.username (User_pre_save w true u) = User.username u
  /\ User_pre_save w false (User_pre_save w true u) = User_pre_save w true u
  /\ exists e, await (comparePassword w u None) = Throw e.
Proof.
  intros Hbcrypt. unfold comparePassword, User_pre_save. cbn.
  rewrite Hbcrypt. repeat split. eauto.
Qed.

Lemma pre_save_then_compare_witness :
  await (comparePassword Fixture.world
           (User_pre_save Fixture.world true
              {| User._id := "64b000000000000000000003";
                 User.username := "carol";
                 User.password := "s3cret" |})
           (Some "s3cret"))
  = Ok true.
Proof.
  refine (proj1 (@pre_save_then_compare Fixture.world
                   {| User._id := "64b000000000000000000003";
                      User.username := "carol";
                      User.password := "s3cret" |} _)).
  intros plain. cbn. apply String.eqb_refl.
Defined.
